(** * Strava Segment Hunter: a shallow embedding of [strava_hunter.py]

    The development follows the source file top-down: the Python
    primitives the program relies on, the two dataclasses, the tile
    mapper, the leader-stats scrape, the analysis pipeline and the
    command-line driver.  Floats are modelled by exact rationals
    ([Q]), Python integers by [Z], exceptions by an error monad, and
    console or network activity by an explicit trace of events. *)

From Stdlib Require Import ZArith QArith Qround Qpower List String Ascii Bool Lia.
From Stdlib Require Import Numbers.DecimalString Numbers.DecimalZ.
Import ListNotations.

Local Open Scope Z_scope.

(** ** Python primitives *)

Module Py.

(** Exceptions the program can meet. *)
Inductive exn : Type :=
| ValueError
| KeyError
| AttributeError
| ClientError.

(** A computation either returns or raises. *)
Inductive outcome (A : Type) : Type :=
| Return (a : A)
| Raise (e : exn).
Arguments Return {A} a.
Arguments Raise {A} e.

(** [int(x)] on a float: truncation toward zero. *)
Definition int_of_float (q : Q) : Z := Z.quot (Qnum q) (Z.pos (Qden q)).

(** [range(lo, hi)]. *)
Definition range (lo hi : Z) : list Z :=
  map (fun i => lo + Z.of_nat i) (seq 0 (Z.to_nat (hi - lo))).

(** [str(n)] for an integer. *)
Definition str (n : Z) : string := NilZero.string_of_int (Z.to_int n).

(** [int(s)] for the decimal notation of an integer. *)
Definition int_of_str (s : string) : option Z :=
  option_map Z.of_int (NilZero.int_of_string s).

(** Truthiness of an [Optional[int]]: [None] and [0] are falsy. *)
Definition truthy (o : option Z) : bool :=
  match o with
  | Some n => negb (n =? 0)
  | None => false
  end.

(** [a > b] on two integers that are known to be present; the
    program only evaluates it behind a truthiness test of both. *)
Definition gt (a b : option Z) : bool :=
  match a, b with
  | Some x, Some y => x >? y
  | _, _ => false
  end.

(** *** Insertion-ordered dictionaries

    A [dict] keeps its keys in insertion order; assigning to a key
    that is already present keeps the key at its position. *)
Definition dict (V : Type) : Type := list (Z * V).

Fixpoint setitem {V} (k : Z) (v : V) (d : dict V) : dict V :=
  match d with
  | [] => [(k, v)]
  | (k', v') :: d' =>
      if k' =? k then (k', v) :: d' else (k', v') :: setitem k v d'
  end.

(** [dict.fromkeys(keys)]: every key mapped to [None]. *)
Definition fromkeys (keys : list Z) : dict unit :=
  fold_left (fun d k => setitem k tt d) keys [].

(** [list(d)]: the keys in dictionary order. *)
Definition keys {V} (d : dict V) : list Z := map fst d.

(** *** Strings (ASCII) *)

Local Open Scope string_scope.

Definition is_space (c : ascii) : bool :=
  let n := nat_of_ascii c in
  ((9 <=? n) && (n <=? 13) || (28 <=? n) && (n <=? 32))%nat.

Definition is_digit (c : ascii) : bool :=
  let n := nat_of_ascii c in ((48 <=? n) && (n <=? 57))%nat.

Fixpoint lstrip (s : string) : string :=
  match s with
  | String c s' => if is_space c then lstrip s' else s
  | EmptyString => EmptyString
  end.

Fixpoint rstrip (s : string) : string :=
  match s with
  | EmptyString => EmptyString
  | String c s' =>
      match rstrip s' with
      | EmptyString => if is_space c then EmptyString else String c EmptyString
      | r => String c r
      end
  end.

(** [s.strip()]. *)
Definition strip (s : string) : string := rstrip (lstrip s).

(** [needle in hay]. *)
Fixpoint contains (needle hay : string) : bool :=
  if prefix needle hay then true
  else match hay with
       | String _ hay' => contains needle hay'
       | EmptyString => false
       end.

(** [s.split(sep)] for a one-character separator. *)
Fixpoint split (sep : ascii) (s : string) : list string :=
  match s with
  | EmptyString => [EmptyString]
  | String c s' =>
      match split sep s' with
      | h :: t => if Ascii.eqb c sep then EmptyString :: h :: t
                  else String c h :: t
      | [] => []
      end
  end.

(** [int(digits)] for a string of decimal digits. *)
Definition int_of_digits (s : string) : Z :=
  fold_left (fun acc c => 10 * acc + (Z.of_nat (nat_of_ascii c) - 48))
            (list_ascii_of_string s) 0.

Fixpoint take_digits (s : string) : string :=
  match s with
  | String c s' => if is_digit c then String c (take_digits s') else EmptyString
  | EmptyString => EmptyString
  end.

(** [re.search(r'(\d+)', s)]: group 1 of the leftmost match. *)
Fixpoint search_digits (s : string) : option string :=
  match s with
  | EmptyString => None
  | String c s' => if is_digit c then Some (take_digits s) else search_digits s'
  end.

(** Case folding for [re.IGNORECASE]. *)
Definition lower (c : ascii) : ascii :=
  let n := nat_of_ascii c in
  if ((65 <=? n) && (n <=? 90))%nat then ascii_of_nat (n + 32) else c.

(** The rest of [hay] after [needle], compared without case. *)
Fixpoint drop_prefix_ci (needle hay : string) : option string :=
  match needle, hay with
  | EmptyString, _ => Some hay
  | String a n', String b h' =>
      if Ascii.eqb (lower a) (lower b) then drop_prefix_ci n' h' else None
  | String _ _, EmptyString => None
  end.

(** Some suffix of [s] satisfies [p]. *)
Fixpoint exists_at (p : string -> bool) (s : string) : bool :=
  if p s then true
  else match s with
       | String _ s' => exists_at p s'
       | EmptyString => false
       end.

Fixpoint drop (n : nat) (s : string) : string :=
  match n, s with
  | S n', String _ s' => drop n' s'
  | _, _ => s
  end.

End Py.

Import Py.

(** ** The dataclasses (lines 27-50) *)

Module SegmentCriteria.
Record t : Type := mk {
  min_distance : Q;
  max_distance : Q;
  max_heart_rate : option Z;
  max_power : option Z;
  min_attempts : Z;
  max_attempts : Z
}.
End SegmentCriteria.

Module SegmentData.
Record t : Type := mk {
  id : Z;
  name : string;
  distance : Q;
  total_attempts : Z;
  leader_name : string;
  leader_time : Z;
  leader_activity_id : Z;
  leader_hr : option Z;
  leader_power : option Z;
  leader_power_verified : bool
}.
End SegmentData.

(** ** Tile coordinates (lines 75-101) *)

(** The functions of the [math] module that [latlon_to_tile] calls.
    They are taken as given: the tile mapper is stated for any
    implementation of them. *)
Module Math.
Record t : Type := mk {
  radians : Q -> Q;
  tan : Q -> Q;
  asinh : Q -> Q;
  pi : Q
}.
End Math.

Definition latlon_to_tile (math : Math.t) (lat lon : Q) (zoom : Z) : Z * Z :=
  let lat_rad := Math.radians math lat in
  let n := Qpower 2 zoom in
  let x := int_of_float ((lon + 180) / 360 * n) in
  let y := int_of_float
             ((1 - Math.asinh math (Math.tan math lat_rad) / Math.pi math)
              / 2 * n) in
  (x, y).

Definition get_surrounding_tiles (math : Math.t) (lat lon radius_km : Q)
    (zoom : Z) : list (Z * Z) :=
  let tile_radius := Z.max 1 (int_of_float (radius_km / 10)) in
  let '(center_x, center_y) := latlon_to_tile math lat lon zoom in
  if Qle_bool radius_km 10 then [(center_x, center_y)]
  else
    flat_map
      (fun dx =>
         map (fun dy => (center_x + dx, center_y + dy))
             (range (- tile_radius) (tile_radius + 1)))
      (range (- tile_radius) (tile_radius + 1)).

(** ** Segment identifier aggregation (line 310) *)

Definition dedupe (all_segment_ids : list Z) : list Z :=
  keys (fromkeys all_segment_ids).

(** ** Parsed pages

    The tree [BeautifulSoup(html, 'html.parser')] builds, with the
    queries the scrape makes on it.  A tag carries its name, its
    [class] list, its [title] attribute and its children. *)

Module Soup.

#[warnings="-register-all"] Inductive node : Type :=
| Text (s : string)
| Tag (name : string) (classes : list string) (title : option string)
      (children : list node).

(** [tag.descendants]: pre-order, the tag itself excluded. *)
Fixpoint descendants (n : node) : list node :=
  match n with
  | Text _ => []
  | Tag _ _ _ children =>
      flat_map (fun c => c :: descendants c) children
  end.

Definition is_tag (nm : string) (n : node) : bool :=
  match n with
  | Tag nm' _ _ _ => String.eqb nm' nm
  | Text _ => false
  end.

(** [tag.get('class', [])]. *)
Definition classes_of (n : node) : list string :=
  match n with
  | Tag _ cs _ _ => cs
  | Text _ => []
  end.

Definition has_class (cls : string) (n : node) : bool :=
  existsb (String.eqb cls) (classes_of n).

(** [class_=re.compile(pat)] for a pattern without metacharacters. *)
Definition class_matches (pat : string) (n : node) : bool :=
  existsb (contains pat) (classes_of n).

Definition title_is (t : string) (n : node) : bool :=
  match n with
  | Tag _ _ (Some t') _ => String.eqb t' t
  | _ => false
  end.

(** [tag.find(...)]: the first descendant that matches, or [None]. *)
Definition find (p : node -> bool) (n : node) : option node :=
  List.find p (descendants n).

(** [tag.find_all(...)]. *)
Definition find_all (p : node -> bool) (n : node) : list node :=
  filter p (descendants n).

Definition text_of (n : node) : list string :=
  match n with
  | Text s => [s]
  | Tag _ _ _ _ => []
  end.

(** [tag.get_text(strip=True)]: every string below the tag is
    stripped, empty ones are dropped, the rest is joined. *)
Definition get_text (n : node) : string :=
  String.concat EmptyString
    (filter (fun s => negb (String.eqb s EmptyString))
            (map strip (flat_map text_of (descendants n)))).

End Soup.

(** ** Leader statistics (lines 228-290) *)

Record response : Type := {
  status : Z;
  html : string;           (* [await response.text()] *)
  soup : Soup.node         (* [BeautifulSoup(html, 'html.parser')] *)
}.

(** [(hr, power, power_verified)]. *)
Definition stats : Type := (option Z * option Z * bool)%type.

Definition no_stats : stats := (None, None, false).

Definition is_some {A} (o : option A) : bool :=
  match o with Some _ => true | None => false end.

(** One iteration of [for cell in cells] (lines 251-269). *)
Definition scan_cell (st : stats) (cell : Soup.node) : stats :=
  let '(hr, power, power_verified) := st in
  let cell_text := Soup.get_text cell in
  let hr :=
    if contains "bpm" cell_text then
      match search_digits cell_text with
      | Some g => Some (int_of_digits g)
      | None => hr
      end
    else hr in
  if contains "W" cell_text
     && (existsb (String.eqb "power") (Soup.classes_of cell)
         || is_some (Soup.find (Soup.class_matches "power") cell))
  then
    match search_digits cell_text with
    | Some g =>
        let power := Some (int_of_digits g) in
        let power_icon :=
          Soup.find (fun n => Soup.is_tag "span" n
                              && Soup.title_is "Power Meter" n) cell in
        (hr, power, if is_some power_icon then true else power_verified)
    | None => (hr, power, power_verified)
    end
  else (hr, power, power_verified).

Definition is_quote (c : ascii) : bool :=
  (Ascii.eqb c (ascii_of_nat 34) || Ascii.eqb c (ascii_of_nat 39))%bool.

(** [title=["\']label["\']] matched at the start of [s], ignoring case. *)
Definition title_attr_at (label s : string) : bool :=
  match drop_prefix_ci "title=" s with
  | Some (String q r) =>
      is_quote q
      && match drop_prefix_ci label r with
         | Some (String q' _) => is_quote q'
         | _ => false
         end
  | _ => false
  end.

Fixpoint until_gt (s : string) : string :=
  match s with
  | String c s' => if Ascii.eqb c ">" then EmptyString else String c (until_gt s')
  | EmptyString => EmptyString
  end.

(** [(\d+)<abbr[^>]*title=["\']label["\']] matched at the start of
    [s]: group 1. *)
Definition abbr_at (label s : string) : option string :=
  let g := take_digits s in
  match g with
  | EmptyString => None
  | _ =>
      match drop_prefix_ci "<abbr" (drop (String.length g) s) with
      | Some rest =>
          if exists_at (title_attr_at label) (until_gt rest) then Some g
          else None
      | None => None
      end
  end.

(** [re.search] of that pattern: the leftmost match. *)
Fixpoint search_abbr (label s : string) : option string :=
  match abbr_at label s with
  | Some g => Some g
  | None =>
      match s with
      | String _ s' => search_abbr label s'
      | EmptyString => None
      end
  end.

(** The regex fallback (lines 274-287). *)
Definition regex_fallback (html : string) : stats :=
  let hr_match := search_abbr "beats per minute" html in
  let power_match := search_abbr "watts" html in
  let hr := option_map int_of_digits hr_match in
  let power := option_map int_of_digits power_match in
  let power_verified :=
    if is_some power_match
    then exists_at (title_attr_at "Power Meter") html
    else false in
  (hr, power, power_verified).

(** [soup.find('table', class_='table-leaderboard')] (line 240). *)
Definition find_leaderboard (page : Soup.node) : option Soup.node :=
  Soup.find (fun n => Soup.is_tag "table" n
                      && Soup.has_class "table-leaderboard" n) page.

(** The table search (lines 240-271); [None] when control falls
    through to the fallback. *)
Definition table_stats (page : Soup.node) : outcome (option stats) :=
  match find_leaderboard page with
  | Some leaderboard_table =>
      match Soup.find (Soup.is_tag "tbody") leaderboard_table with
      | None => Raise AttributeError
      | Some tbody =>
          match Soup.find (Soup.is_tag "tr") tbody with
          | Some first_row =>
              let cells := Soup.find_all (Soup.is_tag "td") first_row in
              Return (Some (fold_left scan_cell cells no_stats))
          | None => Return None
          end
      end
  | None => Return None
  end.

(** ** Console and network activity *)

Inductive message : Type :=
| MsgTileDecodeError (tile_x tile_y : Z)
| MsgTileError (tile_x tile_y status : Z)
| MsgGraphQLErrors
| MsgDetailsError (status : Z)
| MsgPageError (segment_id status : Z)
| MsgNoSegments
| MsgFound (n : nat)
| MsgProcessingError (e : exn)
| MsgSearching (lat lon radius : Q)
| MsgTiles (n : nat)
| MsgInvalidLocation
| MsgWinnable (n : nat)
| MsgTable (rows : list (list string))
| MsgSaved (path : string)
| MsgNoWinnable.

Inductive json : Type :=
| JNull
| JBool (b : bool)
| JInt (n : Z)
| JFloat (q : Q)
| JString (s : string).

Inductive event : Type :=
| TileRequest (region_id zoom x y distance_max distance_min : Z)
| DetailsRequest (batch : list Z)
| PageRequest (segment_id : Z)
| ConsolePrint (m : message)
| WriteOutput (path : string) (objects : list (list (string * json))).

Definition is_request (e : event) : bool :=
  match e with
  | TileRequest _ _ _ _ _ _ | DetailsRequest _ | PageRequest _ => true
  | ConsolePrint _ | WriteOutput _ _ => false
  end.

Definition page_requests (tr : list event) : list Z :=
  flat_map (fun e => match e with PageRequest i => [i] | _ => [] end) tr.

(** A computation that leaves a trace and returns or raises. *)
Definition M (A : Type) : Type := (list event * outcome A)%type.

Definition ret {A} (a : A) : M A := ([], Return a).
Definition raise {A} (e : exn) : M A := ([], Raise e).
Definition emit (e : event) : M unit := ([e], Return tt).
Definition lift {A} (o : outcome A) : M A := ([], o).

Definition bind {A B} (m : M A) (k : A -> M B) : M B :=
  match m with
  | (tr, Return a) => let '(tr', o) := k a in (tr ++ tr', o)
  | (tr, Raise e) => (tr, Raise e)
  end.

(** [try: m except Exception as e: h e]. *)
Definition catch {A} (m : M A) (h : exn -> M A) : M A :=
  match m with
  | (tr, Return a) => (tr, Return a)
  | (tr, Raise e) => let '(tr', o) := h e in (tr ++ tr', o)
  end.

Notation "x <- m ;; k" := (bind m (fun x => k))
  (at level 61, m at next level, right associativity).
Notation "m ;;; k" := (bind m (fun _ => k))
  (at level 61, right associativity).

(** [for a in l: out.extend(f a)]. *)
Fixpoint for_extend {A B} (f : A -> M (list B)) (l : list A) : M (list B) :=
  match l with
  | [] => ret []
  | a :: l' =>
      bs <- f a ;;
      rest <- for_extend f l' ;;
      ret (bs ++ rest)
  end.

(** ** The remote service

    What the three endpoints answer, as far as the program looks at
    it; a [Raise] stands for an exception of the HTTP session. *)

(** The properties of one feature of a vector tile. *)
Record feature : Type := {
  prop_segmentId : option Z;
  prop_id : option Z;
  prop_segment_id : option Z
}.

Record layer : Type := {
  features : option (list feature)     (* ['features' in layer_data] *)
}.

Record tile_response : Type := {
  tile_status : Z;
  (* [data.get('segments', [])] with each [segment['id']] if present;
     [None] when [response.json()] raises *)
  tile_json : option (list (option Z));
  (* [mapbox_vector_tile.decode(tile_data)]; [None] when it raises *)
  tile_layers : option (list layer)
}.

Record effort : Type := {
  athlete_firstName : option string;  (* [leader['athlete']['firstName']] *)
  athlete_lastName : option string;
  timing_elapsedTime : option Z;
  activity_id : option Z
}.

Record leaderboard : Type := {
  leaderboardEfforts : option (list effort)
}.

Record segment : Type := {
  seg_id : option Z;
  metadata_name : option string;
  measurements_distance : option Q;
  totalEfforts : option Z;
  leaderboards : list leaderboard
}.

Record details_response : Type := {
  details_status : Z;
  has_errors : bool;                   (* ['errors' in data] *)
  data_segments : list segment         (* [data.get('data', {}).get('segments', [])] *)
}.

Record network : Type := {
  segment_tile : Z -> Z -> Z -> outcome tile_response;
  segment_query : list Z -> outcome details_response;
  segment_page : Z -> outcome response
}.

(** Every [segment['id']] of the JSON answer, if all are there. *)
Fixpoint all_ids (segments : list (option Z)) : option (list Z) :=
  match segments with
  | [] => Some []
  | Some i :: rest => option_map (cons i) (all_ids rest)
  | None :: _ => None
  end.

(** Lines 137-143: the first of the three keys that is present. *)
Definition feature_ids (f : feature) : list Z :=
  match prop_segmentId f, prop_id f, prop_segment_id f with
  | Some i, _, _ => [i]
  | None, Some i, _ => [i]
  | None, None, Some i => [i]
  | None, None, None => []
  end.

Definition layer_ids (l : layer) : list Z :=
  match features l with
  | Some fs => flat_map feature_ids fs
  | None => []
  end.

(** Lines 103-151. *)
Definition get_segments_from_tile (net : network) (tile_x tile_y : Z)
    (criteria : SegmentCriteria.t) (region_id : Z) : M (list Z) :=
  emit (TileRequest region_id 13 tile_x tile_y
          (int_of_float (SegmentCriteria.max_distance criteria * (1094 # 1000)))
          (int_of_float (SegmentCriteria.min_distance criteria * (1094 # 1000)))) ;;;
  r <- lift (segment_tile net region_id tile_x tile_y) ;;
  if tile_status r =? 200 then
    match option_map all_ids (tile_json r) with
    | Some (Some ids) => ret ids
    | _ =>
        match tile_layers r with
        | Some decoded => ret (flat_map layer_ids decoded)
        | None => emit (ConsolePrint (MsgTileDecodeError tile_x tile_y)) ;;; ret []
        end
    end
  else
    emit (ConsolePrint (MsgTileError tile_x tile_y (tile_status r))) ;;;
    ret [].

(** Lines 153-226. *)
Definition get_segment_details (net : network) (segment_ids : list Z)
    : M (list segment) :=
  emit (DetailsRequest segment_ids) ;;;
  r <- lift (segment_query net segment_ids) ;;
  if details_status r =? 200 then
    if has_errors r then emit (ConsolePrint MsgGraphQLErrors) ;;; ret []
    else ret (data_segments r)
  else
    emit (ConsolePrint (MsgDetailsError (details_status r))) ;;;
    ret [].

(** Lines 228-290. *)
Definition get_leader_stats (net : network) (segment_id : Z) : M stats :=
  emit (PageRequest segment_id) ;;;
  r <- lift (segment_page net segment_id) ;;
  if status r =? 200 then
    found <- lift (table_stats (soup r)) ;;
    match found with
    | Some st => ret st
    | None => ret (regex_fallback (html r))
    end
  else
    emit (ConsolePrint (MsgPageError segment_id (status r))) ;;;
    ret no_stats.

(** ** Segment analysis (lines 292-385) *)

(** [all_segment_ids[i:i + batch_size]] for [i] in
    [range(0, len(all_segment_ids), batch_size)], with [batch_size = 50]. *)
Definition batches (all_segment_ids : list Z) : list (list Z) :=
  map (fun k => firstn 50 (skipn (50 * k)%nat all_segment_ids))
      (seq 0 ((List.length all_segment_ids + 49) / 50)%nat).

(** [d[key]]: a missing key raises. *)
Definition getitem {A} (o : option A) : M A :=
  match o with
  | Some a => ret a
  | None => raise KeyError
  end.

(** [d.get(key, default)]. *)
Definition get {A} (o : option A) (default : A) : A :=
  match o with
  | Some a => a
  | None => default
  end.

(** Lines 342-359; [None] is the [continue] of line 347. *)
Definition extract (s : segment) : M (option SegmentData.t) :=
  match leaderboards s with
  | [] => ret None
  | board :: _ =>
      match leaderboardEfforts board with
      | None | Some [] => ret None
      | Some (leader :: _) =>
          first <- getitem (athlete_firstName leader) ;;
          last <- getitem (athlete_lastName leader) ;;
          elapsed <- getitem (timing_elapsedTime leader) ;;
          activity <- getitem (activity_id leader) ;;
          ret (Some (SegmentData.mk
                       (get (seg_id s) 0)
                       (get (metadata_name s) EmptyString)
                       (get (measurements_distance s) 0%Q)
                       (get (totalEfforts s) 0)
                       (first ++ " " ++ last)%string
                       elapsed
                       activity
                       None None false))
      end
  end.

(** Lines 362-363. *)
Definition basic_gate (criteria : SegmentCriteria.t) (d : SegmentData.t) : bool :=
  Qle_bool (SegmentCriteria.min_distance criteria) (SegmentData.distance d)
  && Qle_bool (SegmentData.distance d) (SegmentCriteria.max_distance criteria)
  && (SegmentCriteria.min_attempts criteria <=? SegmentData.total_attempts d)
  && (SegmentData.total_attempts d <=? SegmentCriteria.max_attempts criteria).

(** The condition of lines 372 and 374:
    [ceiling and (not value or value > ceiling)]. *)
Definition over_ceiling (ceiling value : option Z) : bool :=
  truthy ceiling && (negb (truthy value) || gt value ceiling).

Definition with_stats (d : SegmentData.t) (st : stats) : SegmentData.t :=
  let '(hr, power, power_verified) := st in
  SegmentData.mk (SegmentData.id d) (SegmentData.name d)
    (SegmentData.distance d) (SegmentData.total_attempts d)
    (SegmentData.leader_name d) (SegmentData.leader_time d)
    (SegmentData.leader_activity_id d) hr power power_verified.

(** Lines 361-377, for a detail already extracted: what is appended
    to [winnable_segments]. *)
Definition evaluate (net : network) (criteria : SegmentCriteria.t)
    (segment_data : SegmentData.t) : M (list SegmentData.t) :=
  if basic_gate criteria segment_data then
    st <- get_leader_stats net (SegmentData.id segment_data) ;;
    let '(hr, power, _) := st in
    let segment_data := with_stats segment_data st in
    if over_ceiling (SegmentCriteria.max_heart_rate criteria) hr then ret []
    else if over_ceiling (SegmentCriteria.max_power criteria) power then ret []
    else ret [segment_data]
  else ret [].

(** The body of the loop of line 339, with its [try]/[except]. *)
Definition process_segment (net : network) (criteria : SegmentCriteria.t)
    (s : segment) : M (list SegmentData.t) :=
  catch
    (extracted <- extract s ;;
     match extracted with
     | None => ret []
     | Some segment_data => evaluate net criteria segment_data
     end)
    (fun e => emit (ConsolePrint (MsgProcessingError e)) ;;; ret []).

Definition analyze_details (net : network) (criteria : SegmentCriteria.t)
    (segment_details : list segment) : M (list SegmentData.t) :=
  for_extend (process_segment net criteria) segment_details.

Definition analyze_segments (net : network) (tiles : list (Z * Z))
    (criteria : SegmentCriteria.t) (region_id : Z) : M (list SegmentData.t) :=
  all_segment_ids <-
    for_extend (fun t => get_segments_from_tile net (fst t) (snd t)
                                                criteria region_id)
               tiles ;;
  let all_segment_ids := dedupe all_segment_ids in
  match all_segment_ids with
  | [] => emit (ConsolePrint MsgNoSegments) ;;; ret []
  | _ :: _ =>
      emit (ConsolePrint (MsgFound (List.length all_segment_ids))) ;;;
      segment_details <-
        for_extend (get_segment_details net) (batches all_segment_ids) ;;
      analyze_details net criteria segment_details
  end.

(** ** Display and export (lines 448-488) *)

Local Open Scope string_scope.

(** [f"{n:02d}"]. *)
Definition format_02d (n : Z) : string :=
  let s := str n in
  if (String.length s <? 2)%nat then "0" ++ s else s.

(** Lines 454-456. *)
Definition time_text (leader_time : Z) : string :=
  let minutes := leader_time / 60 in
  let seconds := leader_time mod 60 in
  str minutes ++ ":" ++ format_02d seconds.

Definition segment_url (id : Z) : string :=
  "https://www.strava.com/segments/" ++ str id.

Definition hr_text (leader_hr : option Z) : string :=
  match leader_hr with
  | Some hr => if truthy leader_hr then str hr ++ " bpm" else EmptyString
  | None => EmptyString
  end.

Definition bolt : string :=
  String (ascii_of_nat 226) (String (ascii_of_nat 154)
    (String (ascii_of_nat 161) EmptyString)).

Definition power_text (leader_power : option Z) (verified : bool) : string :=
  match leader_power with
  | Some p =>
      if truthy leader_power
      then (if verified then bolt else EmptyString) ++ str p ++ "W"
      else EmptyString
  | None => EmptyString
  end.

(** Rounding to the nearest integer, ties to even. *)
Definition round_half_even (q : Q) : Z :=
  let f := Qfloor q in
  match Qcompare (q - inject_Z f) (1 # 2) with
  | Lt => f
  | Gt => f + 1
  | Eq => if Z.even f then f else f + 1
  end.

(** [f"{x:.0f}"]. *)
Definition format_0f (q : Q) : string :=
  let n := round_half_even q in
  if Qle_bool 0 q then str n
  else if (n =? 0)%Z then "-0" else str n.

Definition table_row (s : SegmentData.t) : list string :=
  [ SegmentData.name s;
    format_0f (SegmentData.distance s) ++ "m";
    str (SegmentData.total_attempts s);
    SegmentData.leader_name s;
    time_text (SegmentData.leader_time s);
    hr_text (SegmentData.leader_hr s);
    power_text (SegmentData.leader_power s) (SegmentData.leader_power_verified s);
    segment_url (SegmentData.id s) ].

Definition json_of_int (o : option Z) : json :=
  match o with
  | Some n => JInt n
  | None => JNull
  end.

(** Lines 475-486: one object of the exported array, keys in order. *)
Definition segment_dict (s : SegmentData.t) : list (string * json) :=
  [ ("id", JString (str (SegmentData.id s)));
    ("name", JString (SegmentData.name s));
    ("distance", JFloat (SegmentData.distance s));
    ("total_attempts", JInt (SegmentData.total_attempts s));
    ("leader_name", JString (SegmentData.leader_name s));
    ("leader_time", JInt (SegmentData.leader_time s));
    ("leader_hr", json_of_int (SegmentData.leader_hr s));
    ("leader_power", json_of_int (SegmentData.leader_power s));
    ("leader_power_verified", JBool (SegmentData.leader_power_verified s));
    ("url", JString (segment_url (SegmentData.id s))) ].

(** Reading a key of a parsed JSON object. *)
Fixpoint lookup (key : string) (obj : list (string * json)) : option json :=
  match obj with
  | [] => None
  | (k, v) :: obj' => if String.eqb k key then Some v else lookup key obj'
  end.

Local Close Scope string_scope.

(** ** The command line (lines 388-493) *)

Record arguments : Type := {
  criteria_of : SegmentCriteria.t;
  location : string;
  radius : Q;
  region_id_of : Z;
  output : option string
}.

(** Lines 419-421; [float] is the builtin, [None] its [ValueError]. *)
Definition parse_location (float : string -> option Q) (location : string)
    : outcome (Q * Q) :=
  match split "," location with
  | [lat_str; lon_str] =>
      match float (strip lat_str) with
      | None => Raise ValueError
      | Some lat =>
          match float (strip lon_str) with
          | None => Raise ValueError
          | Some lon => Return (lat, lon)
          end
      end
  | _ => Raise ValueError
  end.

(** [try: m except ValueError: h]. *)
Definition catch_ValueError {A} (m : M A) (h : M A) : M A :=
  match m with
  | (tr, Raise ValueError) => let '(tr', o) := h in (tr ++ tr', o)
  | _ => m
  end.

Definition run_analysis (math : Math.t) (float : string -> option Q)
    (net : network) (args : arguments) : M unit :=
  located <-
    catch_ValueError
      (coords <- lift (parse_location float (location args)) ;;
       let '(lat, lon) := coords in
       let tiles := get_surrounding_tiles math lat lon (radius args) 13 in
       emit (ConsolePrint (MsgSearching lat lon (radius args))) ;;;
       emit (ConsolePrint (MsgTiles (List.length tiles))) ;;;
       ret (Some tiles))
      (emit (ConsolePrint MsgInvalidLocation) ;;; ret None) ;;
  match located with
  | None => ret tt
  | Some tiles =>
      segments <- analyze_segments net tiles (criteria_of args)
                                    (region_id_of args) ;;
      match segments with
      | _ :: _ =>
          emit (ConsolePrint (MsgWinnable (List.length segments))) ;;;
          emit (ConsolePrint (MsgTable (map table_row segments))) ;;;
          match output args with
          | Some path =>
              emit (WriteOutput path (map segment_dict segments)) ;;;
              emit (ConsolePrint (MsgSaved path))
          | None => ret tt
          end
      | [] => emit (ConsolePrint MsgNoWinnable)
      end
  end.

(** [main] returns normally when [run_analysis] does, and the
    interpreter then exits with status 0; an exception that escapes
    ends the process with status 1. *)
Definition exit_status (run : M unit) : Z :=
  match snd run with
  | Return _ => 0
  | Raise _ => 1
  end.

(** ** Auxiliary notions used in the statements *)

(** Position of the first occurrence of [x] in [l]. *)
Fixpoint first_index (x : Z) (l : list Z) : option nat :=
  match l with
  | [] => None
  | y :: l' =>
      if y =? x then Some O
      else option_map S (first_index x l')
  end.

Definition mem (x : Z) (l : list Z) : bool := existsb (Z.eqb x) l.

Definition keys_after {V} (d : dict V) (l : list Z) (v : V) : list Z :=
  keys (fold_left (fun d k => setitem k v d) l d).

(** A scraped value passes a ceiling: the ceiling is unset or zero,
    or the value is present, non-zero and at most the ceiling. *)
Definition under_ceiling (ceiling value : option Z) : Prop :=
  match ceiling with
  | None => True
  | Some m => m = 0 \/ exists v, value = Some v /\ v <> 0 /\ v <= m
  end.

(** The details of the loop of line 339 that reach the basic gate:
    those with a leader whose record is complete, in input order. *)
Definition extracted (segment_details : list segment) : list SegmentData.t :=
  flat_map (fun s => match snd (extract s) with
                     | Return (Some d) => [d]
                     | _ => []
                     end)
           segment_details.

(** What a computation appended, nothing if it raised. *)
Definition appended {B} (m : M (list B)) : list B :=
  match snd m with
  | Return l => l
  | Raise _ => []
  end.

(** The invariant of the scraped triple. *)
Definition verified_has_power (st : stats) : Prop :=
  let '(_, power, power_verified) := st in
  power_verified = true -> power <> None.

(** The location string reads as two comma-separated floats. *)
Definition two_floats (float : string -> option Q) (location : string) : Prop :=
  exists lat_str lon_str lat lon,
    split "," location = [lat_str; lon_str]
    /\ float (strip lat_str) = Some lat
    /\ float (strip lon_str) = Some lon.

(** The two float expressions [int] is applied to in [latlon_to_tile]. *)
Definition tile_x_float (lon : Q) (zoom : Z) : Q :=
  (lon + 180) / 360 * Qpower 2 zoom.

Definition tile_y_float (math : Math.t) (lat : Q) (zoom : Z) : Q :=
  (1 - Math.asinh math (Math.tan math (Math.radians math lat)) / Math.pi math)
  / 2 * Qpower 2 zoom.

(** The tiles at the offsets [xs] and [ys] from a centre, the way the
    nested loops of lines 95-99 list them. *)
Definition grid (center_x center_y : Z) (xs ys : list Z) : list (Z * Z) :=
  flat_map (fun dx => map (fun dy => (center_x + dx, center_y + dy)) ys) xs.

(** The batches asked of the detail endpoint, in the order of the trace. *)
Definition details_requests (tr : list event) : list (list Z) :=
  flat_map (fun e => match e with DetailsRequest b => [b] | _ => [] end) tr.

(** The tiles asked of the tile endpoint, in the order of the trace. *)
Definition tile_requests (tr : list event) : list (Z * Z) :=
  flat_map (fun e => match e with
                     | TileRequest _ _ x y _ _ => [(x, y)]
                     | _ => []
                     end) tr.

(** The files written, in the order of the trace. *)
Definition outputs (tr : list event) : list (string * list (list (string * json))) :=
  flat_map (fun e => match e with
                     | WriteOutput path objects => [(path, objects)]
                     | _ => []
                     end) tr.



(** Every character of [s] satisfies [p]. *)
Fixpoint all_chars (p : ascii -> bool) (s : string) : bool :=
  match s with
  | EmptyString => true
  | String a s' => p a && all_chars p s'
  end.

(** The request [get_segments_from_tile] makes for a tile (lines 108-120). *)
Definition tile_request (criteria : SegmentCriteria.t) (region_id : Z)
    (t : Z * Z) : event :=
  TileRequest region_id 13 (fst t) (snd t)
    (int_of_float (SegmentCriteria.max_distance criteria * (1094 # 1000)))
    (int_of_float (SegmentCriteria.min_distance criteria * (1094 # 1000))).

(** The requests of a trace, console output left out. *)
Definition requests (tr : list event) : list event := filter is_request tr.

Definition is_output (e : event) : bool :=
  match e with
  | WriteOutput _ _ => true
  | _ => false
  end.


(** Heart rate and power, when present, are not negative. *)
Definition stats_nonnegative (st : stats) : Prop :=
  let '(hr, power, _) := st in
  (forall h, hr = Some h -> 0 <= h) /\ (forall p, power = Some p -> 0 <= p).

(** What the tile stage leaves in the trace: its requests and its two
    error reports (lines 120, 147, 150). *)
Definition tile_stage_event (e : event) : bool :=
  match e with
  | TileRequest _ _ _ _ _ _ => true
  | ConsolePrint (MsgTileDecodeError _ _) => true
  | ConsolePrint (MsgTileError _ _ _) => true
  | _ => false
  end.

(** ** Sample data

    A stand-in for the [math] module that is exact at the origin, a
    reader of plain decimal literals standing in for [float], and a
    few pages and services used to exercise the definitions. *)

Module Sample.

Local Open Scope string_scope.

Definition math : Math.t :=
  Math.mk (fun x => (x * (355 # 113) / 180)%Q) (fun x => x) (fun x => x)
          (355 # 113)%Q.

(** [digits] or [digits.digits], with an optional minus sign. *)
Definition float (s : string) : option Q :=
  let '(negative, body) :=
    match s with
    | String "-" r => (true, r)
    | _ => (false, s)
    end in
  let whole := take_digits body in
  let rest := drop (String.length whole) body in
  let frac :=
    match rest with
    | String "." f => Some (take_digits f, drop (String.length (take_digits f)) f)
    | EmptyString => Some (EmptyString, EmptyString)
    | _ => None
    end in
  match frac with
  | Some (f, EmptyString) =>
      if ((String.length whole + String.length f) =? 0)%nat then None
      else
        let scale := Z.pow 10 (Z.of_nat (String.length f)) in
        let n := int_of_digits whole * scale + int_of_digits f in
        Some (Qmake (if negative then - n else n) (Z.to_pos scale))
  | _ => None
  end.

Definition criteria : SegmentCriteria.t :=
  SegmentCriteria.mk 500 2000 (Some 160) None 1 50.

(** [--max-heart-rate 0]. *)
Definition criteria_zero_hr : SegmentCriteria.t :=
  SegmentCriteria.mk 500 2000 (Some 0) None 1 50.

Definition detail : SegmentData.t :=
  SegmentData.mk 7 "Hill" 1500 20 "Ada Lo" 125 99 None None false.

(** The same segment, its leader's time set in another activity. *)
Definition detail_other_activity : SegmentData.t :=
  SegmentData.mk 7 "Hill" 1500 20 "Ada Lo" 125 100 None None false.

Definition hr_cell (bpm : string) : Soup.node :=
  Soup.Tag "td" [] None
    [Soup.Text bpm;
     Soup.Tag "abbr" ["unit"] (Some "beats per minute") [Soup.Text "bpm"]].

Definition power_cell : Soup.node :=
  Soup.Tag "td" ["power"] None
    [Soup.Tag "span" ["app-icon"] (Some "Power Meter") [];
     Soup.Text "320";
     Soup.Tag "abbr" ["unit"] (Some "watts") [Soup.Text "W"]].

Definition document (body : list Soup.node) : Soup.node :=
  Soup.Tag "[document]" [] None body.

Definition leaderboard_table (body : list Soup.node) : Soup.node :=
  Soup.Tag "table" ["table"; "table-leaderboard"] None body.

(** A leaderboard whose first row shows 150 bpm and a measured 320 W. *)
Definition page_with_row : response :=
  {| status := 200;
     html := "<table class='table table-leaderboard'><tbody><tr>"
             ++ "<td>150<abbr class='unit' title='beats per minute'>bpm</abbr></td>"
             ++ "<td class='power'><span class='app-icon' title='Power Meter'></span>"
             ++ "320<abbr class='unit' title='watts'>W</abbr></td>"
             ++ "</tr></tbody></table>";
     soup := document
               [leaderboard_table
                  [Soup.Tag "tbody" [] None
                     [Soup.Tag "tr" [] None [hr_cell "150"; power_cell]]]] |}.

(** A leaderboard table whose body has no row, followed by a summary
    line outside the table. *)
Definition page_empty_body : response :=
  {| status := 200;
     html := "<table class='table-leaderboard'><tbody></tbody></table>"
             ++ "<p>142<abbr title='beats per minute'>bpm</abbr></p>";
     soup := document
               [Soup.Tag "table" ["table-leaderboard"] None
                  [Soup.Tag "tbody" [] None []];
                Soup.Tag "p" [] None
                  [Soup.Text "142";
                   Soup.Tag "abbr" [] (Some "beats per minute")
                     [Soup.Text "bpm"]]] |}.

(** A leaderboard table written without [tbody]. *)
Definition page_no_tbody : response :=
  {| status := 200;
     html := "<table class='table-leaderboard'><tr><td>150 bpm</td></tr></table>";
     soup := document
               [Soup.Tag "table" ["table-leaderboard"] None
                  [Soup.Tag "tr" [] None
                     [Soup.Tag "td" [] None [Soup.Text "150 bpm"]]]] |}.

Definition leader : effort :=
  {| athlete_firstName := Some "Ada";
     athlete_lastName := Some "Lo";
     timing_elapsedTime := Some 125;
     activity_id := Some 99 |}.

(** One segment of 1500 m with 20 attempts, one of 1800 m with 100. *)
Definition two_details : list segment :=
  [ {| seg_id := Some 7;
       metadata_name := Some "Hill";
       measurements_distance := Some 1500%Q;
       totalEfforts := Some 20;
       leaderboards := [ {| leaderboardEfforts := Some [leader] |} ] |};
    {| seg_id := Some 8;
       metadata_name := Some "Flat";
       measurements_distance := Some 1800%Q;
       totalEfforts := Some 100;
       leaderboards := [ {| leaderboardEfforts := Some [leader] |} ] |} ].

(** A service with one tile holding segments 7 and 8 (7 twice). *)
Definition serving (page : outcome response) : network :=
  {| segment_tile := fun _ _ _ =>
       Return {| tile_status := 200;
                 tile_json := None;
                 tile_layers :=
                   Some [ {| features :=
                               Some [ Build_feature (Some 7) (Some 1) None;
                                      Build_feature None (Some 8) None;
                                      Build_feature None None (Some 7) ] |} ] |};
     segment_query := fun _ =>
       Return {| details_status := 200;
                 has_errors := false;
                 data_segments := two_details |};
     segment_page := fun _ => page |}.

(** The same service, the session failing on the tiles of column [bad_x]
    and on every other request. *)
Definition failing_at (bad_x : Z) : network :=
  {| segment_tile := fun region_id x y =>
       if (x =? bad_x)%Z then Raise ClientError
       else segment_tile (serving (Raise ClientError)) region_id x y;
     segment_query := fun _ => Raise ClientError;
     segment_page := fun _ => Raise ClientError |}.

Definition args (place : string) : arguments :=
  {| criteria_of := criteria;
     location := place;
     radius := 10;
     region_id_of := 34576447;
     output := None |}.

End Sample.

(** * Proofs *)

(** ** The definitions at work *)

Example table_search_sample :
  table_stats (soup Sample.page_with_row)
  = Return (Some (Some 150, Some 320, true)).
Proof. reflexivity. Qed.

Example regex_fallback_sample :
  regex_fallback
    ("<p>142<abbr title='beats per minute'>bpm</abbr> "
     ++ "250<abbr title='watts'>W</abbr></p>")%string
  = (Some 142, Some 250, false).
Proof. reflexivity. Qed.

Example batches_sample :
  map (@List.length Z) (batches (range 1 124)) = [50; 50; 23]%nat.
Proof. reflexivity. Qed.

Example analysis_sample :
  analyze_details (Sample.serving (Return Sample.page_with_row))
                  Sample.criteria Sample.two_details
  = ([PageRequest 7],
     Return [with_stats Sample.detail (Some 150, Some 320, true)]).
Proof. reflexivity. Qed.

Example run_sample :
  run_analysis Sample.math Sample.float
               (Sample.serving (Return Sample.page_with_row))
               (Sample.args "0,0")
  = ([ConsolePrint (MsgSearching 0 0 10); ConsolePrint (MsgTiles 1);
      TileRequest 34576447 13 4096 4096 2188 547;
      ConsolePrint (MsgFound 2); DetailsRequest [7; 8];
      PageRequest 7; ConsolePrint (MsgWinnable 1);
      ConsolePrint (MsgTable
               [["Hill"; "1500m"; "20"; "Ada Lo"; "2:05"; "150 bpm";
                 bolt ++ "320W"; "https://www.strava.com/segments/7"]%string])],
     Return tt).
Proof. reflexivity. Qed.

(** [int] rounds toward zero, so it differs from the floor below zero. *)
Example int_of_float_negative :
  int_of_float (-3 # 2) = -1 /\ Qfloor (-3 # 2) = -2.
Proof. split; reflexivity. Qed.

Example location_sample :
  parse_location Sample.float " 44.95,-93.09" = Return (4495 # 100, -9309 # 100)%Q.
Proof. reflexivity. Qed.

(** ** Deduplication *)

Lemma mem_In x l : mem x l = true <-> In x l.
Proof.
  unfold mem. rewrite existsb_exists. split.
  - intros (y & Hy & E). apply Z.eqb_eq in E. now subst.
  - intros H. exists x. split; [assumption | apply Z.eqb_refl].
Qed.

Lemma mem_single a x : mem a [x] = (a =? x).
Proof. unfold mem. simpl. apply orb_false_r. Qed.

Lemma keys_setitem {V} k (v : V) d :
  keys (setitem k v d) = if mem k (keys d) then keys d else keys d ++ [k].
Proof.
  induction d as [|[k' v'] d IH]; simpl; [reflexivity|].
  rewrite (Z.eqb_sym k k').
  destruct (k' =? k) eqn:E; simpl; [reflexivity|].
  unfold keys in *. rewrite IH.
  now destruct (mem k (map fst d)).
Qed.

Lemma filter_filter {A} (p q : A -> bool) l :
  filter p (filter q l) = filter (fun x => q x && p x) l.
Proof.
  induction l as [|a l IH]; simpl; [reflexivity|].
  destruct (q a); simpl; [destruct (p a)|]; now rewrite IH.
Qed.

Lemma keys_after_split {V} (v : V) l :
  forall d : dict V,
    keys_after d l v =
    keys d ++ filter (fun k => negb (mem k (keys d))) (keys_after [] l v).
Proof.
  induction l as [|x l IH]; intros d.
  - unfold keys_after. simpl. now rewrite app_nil_r.
  - unfold keys_after in *. simpl fold_left.
    rewrite (IH (setitem x v d)), (IH [(x, v)]).
    rewrite keys_setitem. simpl keys.
    destruct (mem x (keys d)) eqn:M.
    + cbn [filter app]. rewrite M. cbn [negb]. f_equal.
      rewrite filter_filter. apply filter_ext_in. intros a _.
      rewrite mem_single.
      destruct (a =? x) eqn:E; cbn [negb andb]; [|reflexivity].
      apply Z.eqb_eq in E. subst. now rewrite M.
    + rewrite <- app_assoc. f_equal. cbn [filter app]. rewrite M.
      cbn [negb]. f_equal.
      rewrite filter_filter. apply filter_ext_in. intros a _.
      unfold mem. rewrite existsb_app. cbn [existsb].
      rewrite !orb_false_r, negb_orb. apply andb_comm.
Qed.

Lemma dedupe_cons x l :
  dedupe (x :: l) = x :: filter (fun k => negb (k =? x)) (dedupe l).
Proof.
  unfold dedupe, fromkeys. simpl fold_left.
  change (keys_after [(x, tt)] l tt =
          x :: filter (fun k => negb (k =? x)) (keys_after [] l tt)).
  rewrite keys_after_split. simpl. f_equal.
  apply filter_ext. intros a. unfold mem. simpl. now rewrite orb_false_r.
Qed.

Lemma dedupe_In x l : In x (dedupe l) <-> In x l.
Proof.
  induction l as [|a l IH]; [unfold dedupe; simpl; tauto|].
  rewrite dedupe_cons. simpl. rewrite filter_In, IH, negb_true_iff, Z.eqb_neq.
  destruct (Z.eq_dec a x); intuition congruence.
Qed.

Lemma dedupe_NoDup l : NoDup (dedupe l).
Proof.
  induction l as [|a l IH]; [constructor|].
  rewrite dedupe_cons. constructor.
  - rewrite filter_In, negb_true_iff, Z.eqb_neq. tauto.
  - now apply NoDup_filter.
Qed.

Lemma first_index_Some x l : In x l -> exists i, first_index x l = Some i.
Proof.
  induction l as [|a l IH]; simpl; [tauto|].
  intros H. destruct (a =? x) eqn:E; [now exists O|].
  apply Z.eqb_neq in E. destruct H as [H|H]; [congruence|].
  destruct (IH H) as [i Hi]. exists (S i). now rewrite Hi.
Qed.

Lemma first_index_In x l i : first_index x l = Some i -> In x l.
Proof.
  revert i. induction l as [|a l IH]; simpl; [discriminate|].
  intros i. destruct (a =? x) eqn:E.
  - apply Z.eqb_eq in E. now left.
  - destruct (first_index x l); [|discriminate]. right. now apply (IH n).
Qed.

(** Filtering keeps the relative order of the elements it keeps. *)
Lemma first_index_filter (p : Z -> bool) x y l i j i' j' :
  p x = true -> p y = true ->
  first_index x l = Some i -> first_index y l = Some j ->
  first_index x (filter p l) = Some i' ->
  first_index y (filter p l) = Some j' ->
  (i' < j' <-> i < j)%nat.
Proof.
  intros Px Py. revert i j i' j'.
  induction l as [|a l IH]; simpl; [discriminate|].
  intros i j i' j'.
  destruct (a =? x) eqn:Ex; destruct (a =? y) eqn:Ey.
  - apply Z.eqb_eq in Ex. subst a. rewrite Px. simpl.
    rewrite Z.eqb_refl, Ey. intros H H0 H1 H2.
    injection H as <-. injection H0 as <-.
    injection H1 as <-. injection H2 as <-. lia.
  - apply Z.eqb_eq in Ex. subst a. rewrite Px. simpl.
    rewrite Z.eqb_refl, Ey.
    destruct (first_index y l); [|discriminate].
    destruct (first_index y (filter p l)); [|discriminate]. simpl.
    intros H H0 H1 H2.
    injection H as <-. injection H0 as <-.
    injection H1 as <-. injection H2 as <-. lia.
  - apply Z.eqb_eq in Ey. subst a. rewrite Py. simpl.
    rewrite Z.eqb_refl, Ex.
    destruct (first_index x l); [|discriminate].
    destruct (first_index x (filter p l)); [|discriminate]. simpl.
    intros H H0 H1 H2.
    injection H as <-. injection H0 as <-.
    injection H1 as <-. injection H2 as <-. lia.
  - destruct (first_index x l) as [i0|]; [|discriminate].
    destruct (first_index y l) as [j0|]; [|discriminate]. simpl.
    intros H H0. injection H as <-. injection H0 as <-.
    destruct (p a); simpl.
    + rewrite Ex, Ey.
      destruct (first_index x (filter p l)) as [i1|]; [|discriminate].
      destruct (first_index y (filter p l)) as [j1|]; [|discriminate].
      simpl. intros H1 H2. injection H1 as <-. injection H2 as <-.
      specialize (IH i0 j0 i1 j1 eq_refl eq_refl eq_refl eq_refl). lia.
    + intros H1 H2.
      specialize (IH i0 j0 i' j' eq_refl eq_refl H1 H2). lia.
Qed.


Lemma dedupe_order l x y i j :
  first_index x l = Some i -> first_index y l = Some j ->
  exists i' j',
    first_index x (dedupe l) = Some i' /\
    first_index y (dedupe l) = Some j' /\
    (i' < j' <-> i < j)%nat.
Proof.
  revert i j. induction l as [|a l IH]; intros i j; [discriminate|].
  rewrite dedupe_cons. cbn [first_index].
  set (keep := fun k => negb (k =? a)).
  assert (present : forall z, z <> a -> In z l ->
            exists n, first_index z (filter keep (dedupe l)) = Some n).
  { intros z Hz Hin. apply first_index_Some, filter_In. split.
    - now apply dedupe_In.
    - unfold keep. now rewrite negb_true_iff, Z.eqb_neq. }
  destruct (a =? x) eqn:Ex; destruct (a =? y) eqn:Ey.
  - intros [= <-] [= <-]. exists O, O. repeat split; lia.
  - destruct (first_index y l) as [j0|] eqn:Hy; [|discriminate].
    intros [= <-] [= <-].
    apply Z.eqb_neq in Ey.
    destruct (present y (not_eq_sym Ey) (first_index_In _ _ _ Hy)) as [n Hn].
    exists O, (S n). rewrite Hn. repeat split; cbn; lia.
  - destruct (first_index x l) as [i0|] eqn:Hx; [|discriminate].
    intros [= <-] [= <-].
    apply Z.eqb_neq in Ex.
    destruct (present x (not_eq_sym Ex) (first_index_In _ _ _ Hx)) as [n Hn].
    exists (S n), O. rewrite Hn. repeat split; cbn; lia.
  - destruct (first_index x l) as [i0|] eqn:Hx; [|discriminate].
    destruct (first_index y l) as [j0|] eqn:Hy; [|discriminate].
    intros [= <-] [= <-].
    apply Z.eqb_neq in Ex, Ey.
    destruct (IH i0 j0 eq_refl eq_refl) as (i1 & j1 & Hi1 & Hj1 & Hord).
    destruct (present x (not_eq_sym Ex) (first_index_In _ _ _ Hx)) as [n Hn].
    destruct (present y (not_eq_sym Ey) (first_index_In _ _ _ Hy)) as [m Hm].
    exists (S n), (S m). rewrite Hn, Hm. repeat split; try reflexivity.
    + intros H. apply -> Nat.succ_lt_mono. apply Hord.
      apply (first_index_filter keep x y (dedupe l) i1 j1 n m); try assumption.
      * unfold keep. now rewrite negb_true_iff, Z.eqb_neq.
      * unfold keep. now rewrite negb_true_iff, Z.eqb_neq.
      * lia.
    + intros H. apply -> Nat.succ_lt_mono.
      apply (first_index_filter keep x y (dedupe l) i1 j1 n m); try assumption.
      * unfold keep. now rewrite negb_true_iff, Z.eqb_neq.
      * unfold keep. now rewrite negb_true_iff, Z.eqb_neq.
      * apply Hord. lia.
Qed.

(** C7. Deduplication of segment identifiers returns a list without
    repeated elements, holding exactly the identifiers of the input;
    any two identifiers stand in the output in the order of their
    first occurrences in the input; and the identifiers 5, 3, 5, 3, 7
    give 5, 3, 7. *)
Theorem dedupe_first_occurrences :
  forall l : list Z,
    NoDup (dedupe l)
    /\ (forall x, In x (dedupe l) <-> In x l)
    /\ (forall x y i j,
          first_index x l = Some i -> first_index y l = Some j ->
          exists i' j',
            first_index x (dedupe l) = Some i'
            /\ first_index y (dedupe l) = Some j'
            /\ (i' < j' <-> i < j)%nat)
    /\ dedupe [5; 3; 5; 3; 7] = [5; 3; 7].
Proof.
  intros l. split; [apply dedupe_NoDup|].
  split; [intros x; apply dedupe_In|].
  split; [intros x y i j; apply dedupe_order | reflexivity].
Qed.

(** ** Criteria *)

Lemma over_ceiling_false ceiling value :
  over_ceiling ceiling value = false <-> under_ceiling ceiling value.
Proof.
  unfold over_ceiling, under_ceiling, truthy, gt.
  destruct ceiling as [m|]; [|simpl; tauto].
  destruct (m =? 0) eqn:Em; cbn [negb andb].
  - apply Z.eqb_eq in Em. tauto.
  - apply Z.eqb_neq in Em.
    destruct value as [v|]; cbn [negb orb].
    + destruct (v =? 0) eqn:Ev; cbn [negb orb].
      * apply Z.eqb_eq in Ev. split; [discriminate|].
        intros [H|(v' & [= <-] & H & _)]; congruence.
      * apply Z.eqb_neq in Ev. rewrite Z.gtb_ltb, Z.ltb_ge. split.
        -- intros H. right. now exists v.
        -- intros [H|(v' & [= <-] & _ & H)]; [congruence | assumption].
    + split; [discriminate|].
      intros [H|(v' & H & _)]; congruence.
Qed.

(** C6. The basic gate holds exactly when the distance lies between
    the two distance bounds and the attempt count between the two
    attempt bounds, all four bounds included; a detail whose distance
    equals the upper distance bound passes when its other bounds are
    met, and a detail of any greater distance fails. *)
Theorem basic_gate_inclusive :
  forall (c : SegmentCriteria.t) (d : SegmentData.t),
    (basic_gate c d = true <->
       (SegmentCriteria.min_distance c <= SegmentData.distance d)%Q
       /\ (SegmentData.distance d <= SegmentCriteria.max_distance c)%Q
       /\ SegmentCriteria.min_attempts c <= SegmentData.total_attempts d
       /\ SegmentData.total_attempts d <= SegmentCriteria.max_attempts c)
    /\ ((SegmentData.distance d == SegmentCriteria.max_distance c)%Q ->
        (SegmentCriteria.min_distance c <= SegmentCriteria.max_distance c)%Q ->
        SegmentCriteria.min_attempts c <= SegmentData.total_attempts d
          <= SegmentCriteria.max_attempts c ->
        basic_gate c d = true)
    /\ ((SegmentCriteria.max_distance c < SegmentData.distance d)%Q ->
        basic_gate c d = false).
Proof.
  intros c d.
  assert (gate : basic_gate c d = true <->
       (SegmentCriteria.min_distance c <= SegmentData.distance d)%Q
       /\ (SegmentData.distance d <= SegmentCriteria.max_distance c)%Q
       /\ SegmentCriteria.min_attempts c <= SegmentData.total_attempts d
       /\ SegmentData.total_attempts d <= SegmentCriteria.max_attempts c).
  { unfold basic_gate.
    rewrite !andb_true_iff, !Qle_bool_iff, !Z.leb_le. tauto. }
  split; [exact gate|]. split.
  - intros Heq Hmin Hatt. apply gate. rewrite Heq.
    repeat split; try tauto. apply Qle_refl.
  - intros Hgt. destruct (basic_gate c d) eqn:G; [|reflexivity].
    destruct (proj1 gate eq_refl) as (_ & Hle & _).
    exfalso. exact (Qlt_not_le _ _ Hgt Hle).
Qed.

Lemma evaluate_passed net c d tr hr power pv :
  basic_gate c d = true ->
  get_leader_stats net (SegmentData.id d) = (tr, Return (hr, power, pv)) ->
  evaluate net c d =
  (tr, Return
         (if over_ceiling (SegmentCriteria.max_heart_rate c) hr
             || over_ceiling (SegmentCriteria.max_power c) power
          then []
          else [with_stats d (hr, power, pv)])).
Proof.
  intros G S. unfold evaluate. rewrite G, S. cbn [bind].
  destruct (over_ceiling (SegmentCriteria.max_heart_rate c) hr);
    [cbn; now rewrite app_nil_r|].
  destruct (over_ceiling (SegmentCriteria.max_power c) power);
    cbn; now rewrite app_nil_r.
Qed.

(** C5, as the code has it.  For a detail that passes the basic gate
    and whose scrape returned, the candidate is kept, with the scraped
    values attached, exactly when each ceiling is unset or zero or the
    scraped value is present, non-zero and at most the ceiling; in
    every other case nothing is appended.  So a ceiling of 0 never
    drops a candidate, and a scraped value of 0 counts as absent. *)
Theorem ceilings_keep_or_drop :
  forall net c d tr hr power pv,
    basic_gate c d = true ->
    get_leader_stats net (SegmentData.id d) = (tr, Return (hr, power, pv)) ->
    (under_ceiling (SegmentCriteria.max_heart_rate c) hr
     /\ under_ceiling (SegmentCriteria.max_power c) power ->
     evaluate net c d = (tr, Return [with_stats d (hr, power, pv)]))
    /\ (~ (under_ceiling (SegmentCriteria.max_heart_rate c) hr
           /\ under_ceiling (SegmentCriteria.max_power c) power) ->
        evaluate net c d = (tr, Return [])).
Proof.
  intros net c d tr hr power pv G S.
  rewrite (evaluate_passed _ _ _ _ _ _ _ G S).
  rewrite <- !over_ceiling_false.
  destruct (over_ceiling (SegmentCriteria.max_heart_rate c) hr);
    destruct (over_ceiling (SegmentCriteria.max_power c) power);
    cbn [orb]; split; intros H; try reflexivity;
    try (destruct H; discriminate);
    exfalso; apply H; split; reflexivity.
Qed.

Lemma ceilings_keep_or_drop_witness :
  evaluate (Sample.serving (Return Sample.page_with_row))
           Sample.criteria Sample.detail
  = ([PageRequest 7],
     Return [with_stats Sample.detail (Some 150, Some 320, true)]).
Proof.
  apply (ceilings_keep_or_drop
           (Sample.serving (Return Sample.page_with_row))
           Sample.criteria Sample.detail
           [PageRequest 7] (Some 150) (Some 320) true);
    [reflexivity | reflexivity |].
  split; cbn.
  - right. exists 150. repeat split; [discriminate | lia].
  - exact I.
Defined.

(** C5, as stated, fails: with [--max-heart-rate 0] the ceiling is
    set, the scraped heart rate of 150 is present and exceeds it, and
    the candidate is kept. *)
Lemma zero_ceiling_keeps_candidate :
  SegmentCriteria.max_heart_rate Sample.criteria_zero_hr = Some 0
  /\ basic_gate Sample.criteria_zero_hr Sample.detail = true
  /\ snd (get_leader_stats (Sample.serving (Return Sample.page_with_row))
                           (SegmentData.id Sample.detail))
     = Return (Some 150, Some 320, true)
  /\ 150 > 0
  /\ snd (evaluate (Sample.serving (Return Sample.page_with_row))
                   Sample.criteria_zero_hr Sample.detail)
     = Return [with_stats Sample.detail (Some 150, Some 320, true)].
Proof.
  repeat split; reflexivity.
Qed.

(** ** Traces *)

Lemma page_requests_app tr tr' :
  page_requests (tr ++ tr') = page_requests tr ++ page_requests tr'.
Proof. unfold page_requests. apply flat_map_app. Qed.

Lemma bind_trace {A B} (m : M A) (k : A -> M B) :
  fst (bind m k) =
  fst m ++ match snd m with
           | Return a => fst (k a)
           | Raise _ => []
           end.
Proof.
  destruct m as [tr [a|e]]; cbn.
  - now destruct (k a).
  - now rewrite app_nil_r.
Qed.

Lemma bind_outcome {A B} (m : M A) (k : A -> M B) :
  snd (bind m k) =
  match snd m with
  | Return a => snd (k a)
  | Raise e => Raise e
  end.
Proof.
  destruct m as [tr [a|e]]; cbn; [now destruct (k a) | reflexivity].
Qed.

Lemma catch_trace {A} (m : M A) (h : exn -> M A) :
  fst (catch m h) =
  fst m ++ match snd m with
           | Return _ => []
           | Raise e => fst (h e)
           end.
Proof.
  destruct m as [tr [a|e]]; cbn.
  - now rewrite app_nil_r.
  - now destruct (h e).
Qed.

Lemma catch_outcome {A} (m : M A) (h : exn -> M A) :
  snd (catch m h) =
  match snd m with
  | Return a => Return a
  | Raise e => snd (h e)
  end.
Proof.
  destruct m as [tr [a|e]]; cbn; [reflexivity | now destruct (h e)].
Qed.

Lemma for_extend_total {A B} (f : A -> M (list B)) (l : list A) :
  (forall a, exists bs, snd (f a) = Return bs) ->
  for_extend f l =
  (flat_map (fun a => fst (f a)) l, Return (flat_map (fun a => appended (f a)) l)).
Proof.
  intros total. induction l as [|a l IH]; [reflexivity|].
  cbn [for_extend flat_map]. rewrite IH.
  destruct (total a) as [bs Hbs]. unfold appended. rewrite Hbs.
  destruct (f a) as [tr o]. cbn in Hbs. subst o. cbn.
  now rewrite app_nil_r.
Qed.

(** ** The scrape and the loop around it *)

Lemma extract_silent s : fst (extract s) = [].
Proof.
  unfold extract.
  destruct (leaderboards s) as [|board ?]; [reflexivity|].
  destruct (leaderboardEfforts board) as [[|leader ?]|]; try reflexivity.
  destruct (athlete_firstName leader), (athlete_lastName leader),
    (timing_elapsedTime leader), (activity_id leader); reflexivity.
Qed.

Lemma get_leader_stats_requests net i :
  page_requests (fst (get_leader_stats net i)) = [i].
Proof.
  unfold get_leader_stats. rewrite bind_trace. cbn [emit fst snd].
  rewrite bind_trace. cbn [lift fst snd app].
  destruct (segment_page net i) as [r|e]; [|reflexivity].
  destruct (status r =? 200).
  - rewrite bind_trace. cbn [lift fst snd app].
    destruct (table_stats (soup r)) as [[st|]|e]; reflexivity.
  - reflexivity.
Qed.

Lemma evaluate_requests net c d :
  page_requests (fst (evaluate net c d)) =
  if basic_gate c d then [SegmentData.id d] else [].
Proof.
  unfold evaluate. destruct (basic_gate c d); [|reflexivity].
  rewrite bind_trace, page_requests_app, get_leader_stats_requests.
  destruct (snd (get_leader_stats net (SegmentData.id d)))
    as [[[hr power] pv]|e]; [|reflexivity].
  destruct (over_ceiling (SegmentCriteria.max_heart_rate c) hr);
    [reflexivity|].
  destruct (over_ceiling (SegmentCriteria.max_power c) power); reflexivity.
Qed.

Lemma process_segment_returns net c s :
  exists l, snd (process_segment net c s) = Return l.
Proof.
  unfold process_segment. rewrite catch_outcome.
  match goal with |- context [snd ?m] => destruct (snd m) as [l|e] end.
  - now exists l.
  - now exists [].
Qed.

Lemma process_segment_requests net c s :
  page_requests (fst (process_segment net c s)) =
  match snd (extract s) with
  | Return (Some d) => if basic_gate c d then [SegmentData.id d] else []
  | _ => []
  end.
Proof.
  unfold process_segment.
  rewrite catch_trace, page_requests_app, bind_trace, bind_outcome.
  rewrite extract_silent. cbn [app].
  destruct (snd (extract s)) as [[d|]|e]; cbn [fst snd ret].
  - rewrite evaluate_requests.
    destruct (snd (evaluate net c d)); cbn; now rewrite app_nil_r.
  - reflexivity.
  - reflexivity.
Qed.

Lemma for_extend_requests {A B} (f : A -> M (list B)) (l : list A) :
  (forall a, page_requests (fst (f a)) = []) ->
  page_requests (fst (for_extend f l)) = [].
Proof.
  intros quiet. induction l as [|a l IH]; [reflexivity|].
  cbn [for_extend]. rewrite bind_trace, page_requests_app, quiet.
  destruct (snd (f a)); [|reflexivity].
  rewrite bind_trace, page_requests_app, IH.
  now destruct (snd (for_extend f l)).
Qed.

Lemma get_segments_from_tile_requests net x y c region :
  page_requests (fst (get_segments_from_tile net x y c region)) = [].
Proof.
  unfold get_segments_from_tile. rewrite bind_trace. cbn [emit fst snd].
  rewrite bind_trace. cbn [lift fst snd app].
  destruct (segment_tile net region x y) as [r|e]; [|reflexivity].
  destruct (tile_status r =? 200); [|reflexivity].
  destruct (option_map all_ids (tile_json r)) as [[ids|]|];
    try reflexivity; now destruct (tile_layers r).
Qed.

Lemma get_segment_details_requests net ids :
  page_requests (fst (get_segment_details net ids)) = [].
Proof.
  unfold get_segment_details. rewrite bind_trace. cbn [emit fst snd].
  rewrite bind_trace. cbn [lift fst snd app].
  destruct (segment_query net ids) as [r|e]; [|reflexivity].
  destruct (details_status r =? 200); [|reflexivity].
  now destruct (has_errors r).
Qed.

Lemma analyze_details_requests net c segment_details :
  page_requests (fst (analyze_details net c segment_details))
  = map SegmentData.id (filter (basic_gate c) (extracted segment_details)).
Proof.
  unfold analyze_details.
  rewrite for_extend_total by apply process_segment_returns.
  cbn [fst]. unfold extracted.
  induction segment_details as [|s l IH]; [reflexivity|].
  cbn [flat_map]. rewrite page_requests_app, filter_app, map_app, IH.
  f_equal. rewrite process_segment_requests.
  destruct (snd (extract s)) as [[d|]|e]; try reflexivity.
  cbn [filter]. now destruct (basic_gate c d).
Qed.

(** C8. While the details are analysed, the leaderboard pages that
    are requested are those of the details that pass the basic gate,
    one request each, in the order of the details; a detail that
    fails the gate causes no page request; and a run of the whole
    analysis requests no other page than these. *)
Theorem scrape_only_after_gate :
  forall net c,
    (forall segment_details,
        page_requests (fst (analyze_details net c segment_details))
        = map SegmentData.id
              (filter (basic_gate c) (extracted segment_details)))
    /\ (forall s d,
          snd (extract s) = Return (Some d) ->
          basic_gate c d = false ->
          page_requests (fst (process_segment net c s)) = [])
    /\ (forall tiles region_id tr ids tr' segment_details,
          for_extend
            (fun t => get_segments_from_tile net (fst t) (snd t) c region_id)
            tiles = (tr, Return ids) ->
          for_extend (get_segment_details net) (batches (dedupe ids))
          = (tr', Return segment_details) ->
          page_requests (fst (analyze_segments net tiles c region_id))
          = map SegmentData.id
                (filter (basic_gate c) (extracted segment_details))).
Proof.
  intros net c. split; [apply analyze_details_requests|]. split.
  - intros s d E G. rewrite process_segment_requests, E. now rewrite G.
  - intros tiles region tr ids tr' details Htiles Hdetails.
    pose proof (for_extend_requests
                  (fun t => get_segments_from_tile net (fst t) (snd t) c region)
                  tiles
                  (fun t => get_segments_from_tile_requests net _ _ c region))
      as quiet.
    pose proof (for_extend_requests (get_segment_details net)
                  (batches (dedupe ids)) (get_segment_details_requests net))
      as quiet'.
    rewrite Htiles in quiet. rewrite Hdetails in quiet'. cbn [fst] in quiet, quiet'.
    unfold analyze_segments. rewrite Htiles. cbn [bind].
    destruct (dedupe ids) as [|i rest] eqn:D.
    + cbn in Hdetails. injection Hdetails as <- <-.
      cbn [emit ret bind fst app]. rewrite page_requests_app, quiet.
      reflexivity.
    + cbn [emit bind]. rewrite Hdetails. cbn [bind].
      destruct (analyze_details net c details) as [tr'' o] eqn:A.
      cbn [fst app]. rewrite page_requests_app. cbn [page_requests flat_map app].
      rewrite page_requests_app, quiet, quiet'. cbn [app].
      change tr'' with (fst (tr'', o)). rewrite <- A.
      apply analyze_details_requests.
Qed.

(** ** Verified power *)

Lemma scan_cell_verified st cell :
  verified_has_power st -> verified_has_power (scan_cell st cell).
Proof.
  destruct st as [[hr power] pv]. unfold scan_cell, verified_has_power.
  intros inv.
  destruct (contains "W" (Soup.get_text cell)
            && (existsb (String.eqb "power") (Soup.classes_of cell)
                || is_some (Soup.find (Soup.class_matches "power") cell)));
    [|exact inv].
  destruct (search_digits (Soup.get_text cell)); [discriminate | exact inv].
Qed.

Lemma scan_cells_verified cells :
  forall st, verified_has_power st ->
             verified_has_power (fold_left scan_cell cells st).
Proof.
  induction cells as [|cell cells IH]; intros st inv; [exact inv|].
  cbn [fold_left]. apply IH. now apply scan_cell_verified.
Qed.

Lemma regex_fallback_verified html : verified_has_power (regex_fallback html).
Proof.
  unfold regex_fallback, verified_has_power.
  destruct (search_abbr "watts" html); cbn; [discriminate|].
  discriminate.
Qed.

Lemma table_stats_verified page st :
  table_stats page = Return (Some st) -> verified_has_power st.
Proof.
  unfold table_stats.
  destruct (find_leaderboard page) as [table|]; [|discriminate].
  destruct (Soup.find (Soup.is_tag "tbody") table) as [tbody|]; [|discriminate].
  destruct (Soup.find (Soup.is_tag "tr") tbody) as [row|]; [|discriminate].
  intros [= <-]. apply scan_cells_verified. cbn. discriminate.
Qed.

Lemma get_leader_stats_verified net i st :
  snd (get_leader_stats net i) = Return st -> verified_has_power st.
Proof.
  unfold get_leader_stats.
  rewrite bind_outcome. cbn [emit snd]. rewrite bind_outcome. cbn [lift snd].
  destruct (segment_page net i) as [r|e]; [|discriminate].
  destruct (status r =? 200).
  - rewrite bind_outcome. cbn [lift snd].
    destruct (table_stats (soup r)) as [[st'|]|e] eqn:T; [| |discriminate].
    + intros [= <-]. now apply (table_stats_verified (soup r)).
    + intros [= <-]. apply regex_fallback_verified.
  - intros [= <-]. cbn. discriminate.
Qed.

(** C10. Whatever triple the leader-stats scrape returns, from the
    table search, the regex fallback or the error path: if power is
    marked verified then a power value is present, and a triple
    without power is not marked verified. *)
Theorem power_verified_needs_power :
  forall net segment_id tr hr power power_verified,
    get_leader_stats net segment_id = (tr, Return (hr, power, power_verified)) ->
    (power_verified = true -> power <> None)
    /\ (power = None -> power_verified = false).
Proof.
  intros net i tr hr power pv H.
  assert (inv : verified_has_power (hr, power, pv)).
  { apply (get_leader_stats_verified net i). now rewrite H. }
  cbn in inv. split; [exact inv|].
  intros ->. destruct pv; [|reflexivity]. now destruct inv.
Qed.

Lemma power_verified_needs_power_witness :
  (true = true -> Some 320 <> None)
  /\ (Some 320 = None -> true = false).
Proof.
  apply (power_verified_needs_power
           (Sample.serving (Return Sample.page_with_row)) 7
           [PageRequest 7] (Some 150) (Some 320) true).
  reflexivity.
Defined.

(** ** The two tiers *)

Lemma get_leader_stats_ok net i r :
  segment_page net i = Return r -> status r = 200 ->
  get_leader_stats net i =
  ([PageRequest i],
   match table_stats (soup r) with
   | Return (Some st) => Return st
   | Return None => Return (regex_fallback (html r))
   | Raise e => Raise e
   end).
Proof.
  intros P S. unfold get_leader_stats. rewrite P.
  cbn -[table_stats regex_fallback Z.eqb]. rewrite S.
  cbn -[table_stats regex_fallback].
  destruct (table_stats (soup r)) as [[st|]|e]; reflexivity.
Qed.

Lemma table_stats_falls_through page :
  table_stats page = Return None <->
  find_leaderboard page = None
  \/ exists table tbody,
       find_leaderboard page = Some table
       /\ Soup.find (Soup.is_tag "tbody") table = Some tbody
       /\ Soup.find (Soup.is_tag "tr") tbody = None.
Proof.
  unfold table_stats.
  destruct (find_leaderboard page) as [table|]; [|intuition].
  destruct (Soup.find (Soup.is_tag "tbody") table) as [tbody|] eqn:B.
  - destruct (Soup.find (Soup.is_tag "tr") tbody) as [row|] eqn:R.
    + split; [discriminate|].
      intros [H|(t & b & [= <-] & Hb & Hr)]; [discriminate|].
      rewrite B in Hb. injection Hb as <-. congruence.
    + split; [|reflexivity]. intros _. right. now exists table, tbody.
  - split; [discriminate|].
    intros [H|(t & b & [= <-] & Hb & _)]; [discriminate | congruence].
Qed.

(** C3, as the code has it.  On a page answered with status 200: if
    the page has no leaderboard table, or has one whose [tbody] holds
    no row, the scrape returns what the regex fallback finds; if the
    table's [tbody] has a first row, the scrape returns what the cells
    of that row give, whatever they contain, and control does not
    reach the fallback.  So, on pages whose leaderboard table has a
    [tbody], the fallback is reached exactly when there is no table
    or no row. *)
Theorem fallback_when_no_first_row :
  forall net segment_id r,
    segment_page net segment_id = Return r ->
    status r = 200 ->
    (find_leaderboard (soup r) = None ->
     get_leader_stats net segment_id
     = ([PageRequest segment_id], Return (regex_fallback (html r))))
    /\ (forall table tbody,
          find_leaderboard (soup r) = Some table ->
          Soup.find (Soup.is_tag "tbody") table = Some tbody ->
          Soup.find (Soup.is_tag "tr") tbody = None ->
          get_leader_stats net segment_id
          = ([PageRequest segment_id], Return (regex_fallback (html r))))
    /\ (forall table tbody first_row,
          find_leaderboard (soup r) = Some table ->
          Soup.find (Soup.is_tag "tbody") table = Some tbody ->
          Soup.find (Soup.is_tag "tr") tbody = Some first_row ->
          table_stats (soup r) <> Return None
          /\ get_leader_stats net segment_id
             = ([PageRequest segment_id],
                Return (fold_left scan_cell
                          (Soup.find_all (Soup.is_tag "td") first_row)
                          no_stats)))
    /\ ((forall table,
           find_leaderboard (soup r) = Some table ->
           Soup.find (Soup.is_tag "tbody") table <> None) ->
        (table_stats (soup r) = Return None <->
           find_leaderboard (soup r) = None
           \/ exists table tbody,
                find_leaderboard (soup r) = Some table
                /\ Soup.find (Soup.is_tag "tbody") table = Some tbody
                /\ Soup.find (Soup.is_tag "tr") tbody = None)).
Proof.
  intros net i r P S. rewrite (get_leader_stats_ok _ _ _ P S).
  split; [|split; [|split]].
  - intros Ht. unfold table_stats. now rewrite Ht.
  - intros table tbody Ht Hb Hr. unfold table_stats. now rewrite Ht, Hb, Hr.
  - intros table tbody row Ht Hb Hr. unfold table_stats.
    rewrite Ht, Hb, Hr. split; [discriminate | reflexivity].
  - intros _. apply table_stats_falls_through.
Qed.

Lemma fallback_when_no_first_row_witness :
  get_leader_stats (Sample.serving (Return Sample.page_empty_body)) 7
  = ([PageRequest 7], Return (Some 142, None, false)).
Proof.
  destruct (fallback_when_no_first_row
              (Sample.serving (Return Sample.page_empty_body)) 7
              Sample.page_empty_body eq_refl eq_refl)
    as (_ & empty_body & _).
  apply (empty_body (Soup.Tag "table" ["table-leaderboard"%string] None
                       [Soup.Tag "tbody" [] None []])
                    (Soup.Tag "tbody" [] None []));
    reflexivity.
Defined.

(** C3, as stated, fails: this page contains a leaderboard table,
    its body has no row, and the scrape returns the heart rate that
    the regex fallback reads outside the table. *)
Lemma fallback_used_despite_table :
  find_leaderboard (soup Sample.page_empty_body) <> None
  /\ table_stats (soup Sample.page_empty_body) = Return None
  /\ regex_fallback (html Sample.page_empty_body) = (Some 142, None, false)
  /\ get_leader_stats (Sample.serving (Return Sample.page_empty_body)) 7
     = ([PageRequest 7], Return (Some 142, None, false)).
Proof.
  repeat split; try reflexivity. discriminate.
Qed.

(** ** Errors of the scrape *)

Lemma process_segment_catches net c s d tr e :
  snd (extract s) = Return (Some d) ->
  evaluate net c d = (tr, Raise e) ->
  process_segment net c s = (tr ++ [ConsolePrint (MsgProcessingError e)], Return []).
Proof.
  intros E V. unfold process_segment.
  pose proof (extract_silent s) as Hs.
  destruct (extract s) as [tr0 o]. cbn in E, Hs. subst tr0 o.
  cbn [bind]. rewrite V. reflexivity.
Qed.

Lemma analyze_details_returns net c segment_details :
  exists tr l, analyze_details net c segment_details = (tr, Return l).
Proof.
  unfold analyze_details.
  rewrite for_extend_total by apply process_segment_returns.
  eauto.
Qed.

(** C2, as the code has it.  When the page is answered with a status
    other than 200, the scrape reports it and returns the all-absent
    triple.  The scrape handles no exception itself: when it raises,
    as it does when the session fails to make the request, the
    exception reaches the loop of the analysis, which reports it and
    appends nothing for that segment; the analysis of the details
    never raises. *)
Theorem scrape_errors_are_contained :
  forall net c,
    (forall segment_id r,
        segment_page net segment_id = Return r ->
        status r <> 200 ->
        get_leader_stats net segment_id
        = ([PageRequest segment_id;
            ConsolePrint (MsgPageError segment_id (status r))],
           Return no_stats))
    /\ (forall s d tr e,
          snd (extract s) = Return (Some d) ->
          basic_gate c d = true ->
          get_leader_stats net (SegmentData.id d) = (tr, Raise e) ->
          process_segment net c s
          = (tr ++ [ConsolePrint (MsgProcessingError e)], Return []))
    /\ (forall segment_details,
          exists tr l, analyze_details net c segment_details = (tr, Return l)).
Proof.
  intros net c. split; [|split].
  - intros i r P S. unfold get_leader_stats. rewrite P.
    apply Z.eqb_neq in S. cbn. now rewrite S.
  - intros s d tr e E G S. apply (process_segment_catches _ _ _ d); [exact E|].
    unfold evaluate. rewrite G, S. reflexivity.
  - apply analyze_details_returns.
Qed.

(** C2, as stated, fails: for a request the session fails to make,
    and for a page with a leaderboard table that has no [tbody], the
    scrape raises to its caller and returns no triple. *)
Lemma scrape_raises_to_caller :
  get_leader_stats (Sample.serving (Raise ClientError)) 7
  = ([PageRequest 7], Raise ClientError)
  /\ get_leader_stats (Sample.serving (Return Sample.page_no_tbody)) 7
     = ([PageRequest 7], Raise AttributeError).
Proof.
  split; reflexivity.
Qed.

(** ** The location argument *)

Lemma parse_location_invalid float location :
  ~ two_floats float location ->
  parse_location float location = Raise ValueError.
Proof.
  intros bad. unfold parse_location.
  destruct (split "," location) as [|lat_str [|lon_str [|? ?]]] eqn:Sp;
    try reflexivity.
  destruct (float (strip lat_str)) as [lat|] eqn:Flat; [|reflexivity].
  destruct (float (strip lon_str)) as [lon|] eqn:Flon; [|reflexivity].
  exfalso. apply bad. now exists lat_str, lon_str, lat, lon.
Qed.

(** C4, as the code has it.  When the location string does not read
    as two comma-separated floats, the run prints the invalid-location
    error and nothing else, makes no request, and returns normally,
    so the process exits with status 0. *)
Theorem invalid_location_returns :
  forall math float net args,
    ~ two_floats float (location args) ->
    run_analysis math float net args = ([ConsolePrint MsgInvalidLocation], Return tt)
    /\ (forall e, In e (fst (run_analysis math float net args)) ->
                  is_request e = false)
    /\ exit_status (run_analysis math float net args) = 0.
Proof.
  intros math float net args bad.
  assert (run : run_analysis math float net args
                = ([ConsolePrint MsgInvalidLocation], Return tt)).
  { unfold run_analysis. rewrite (parse_location_invalid _ _ bad). reflexivity. }
  rewrite run. split; [reflexivity|]. split; [|reflexivity].
  intros e [<-|[]]. reflexivity.
Qed.

Lemma invalid_location_returns_witness :
  run_analysis Sample.math Sample.float (Sample.serving (Raise ClientError))
               (Sample.args "somewhere")
  = ([ConsolePrint MsgInvalidLocation], Return tt).
Proof.
  apply (invalid_location_returns Sample.math Sample.float
           (Sample.serving (Raise ClientError)) (Sample.args "somewhere")).
  intros (a & b & lat & lon & Sp & _). cbn in Sp. discriminate.
Defined.

(** C4, as stated, fails: the location [somewhere] does not read as
    two floats, and the process exits with status 0. *)
Lemma invalid_location_exit_status_zero :
  ~ two_floats Sample.float "somewhere"
  /\ exit_status
       (run_analysis Sample.math Sample.float
                     (Sample.serving (Raise ClientError))
                     (Sample.args "somewhere"))
     = 0.
Proof.
  split; [|reflexivity].
  intros (a & b & lat & lon & Sp & _). cbn in Sp. discriminate.
Qed.

(** ** Export *)

Lemma int_of_str_str z : int_of_str (str z) = Some z.
Proof.
  unfold int_of_str, str. rewrite NilZero.isi.
  - cbn. now rewrite DecimalZ.of_to.
  - destruct z; cbn; try discriminate.
    intros [= H]. now apply DecimalPos.Unsigned.to_uint_nonnil in H.
  - destruct z; cbn; try discriminate.
    intros [= H]. now apply DecimalPos.Unsigned.to_uint_nonnil in H.
Qed.

Lemma str_inj a b : str a = str b -> a = b.
Proof.
  intros H. apply (f_equal int_of_str) in H.
  rewrite !int_of_str_str in H. now injection H.
Qed.

Lemma json_of_int_inj a b : json_of_int a = json_of_int b -> a = b.
Proof. destruct a, b; cbn; congruence. Qed.

Lemma format_02d_seconds n :
  0 <= n < 60 ->
  String.length (format_02d n) = 2%nat
  /\ int_of_str (format_02d n) = Some n.
Proof.
  intros H.
  assert (E : exists k, (k < 60)%nat /\ n = Z.of_nat k).
  { exists (Z.to_nat n). split; lia. }
  destruct E as (k & Hk & ->). clear H.
  do 60 (destruct k as [|k]; [vm_compute; split; reflexivity|]).
  lia.
Qed.

(** C9, as the code has it.  The exported object has the ten keys of
    the persisted shape, in order.  Reading it back gives [name],
    [distance], [total_attempts], [leader_name], [leader_time],
    [leader_hr], [leader_power] and [leader_power_verified]
    unchanged, and [id] as the decimal string of the integer id, from
    which the id is read back; [url] is the segment base URL, a
    slash and the id; [leader_activity_id] is not exported, and two
    segments with the same export differ at most there.  A leader
    time read back displays as the original does; 125 seconds
    display as 2:05; and for a non-negative time the display is the
    minutes, a colon and two digits of seconds, from which the time
    is reconstructed. *)
Theorem export_round_trip :
  forall s : SegmentData.t,
    map fst (segment_dict s)
    = ["id"; "name"; "distance"; "total_attempts"; "leader_name";
       "leader_time"; "leader_hr"; "leader_power";
       "leader_power_verified"; "url"]%string
    /\ lookup "id" (segment_dict s) = Some (JString (str (SegmentData.id s)))
    /\ int_of_str (str (SegmentData.id s)) = Some (SegmentData.id s)
    /\ lookup "name" (segment_dict s) = Some (JString (SegmentData.name s))
    /\ lookup "distance" (segment_dict s)
       = Some (JFloat (SegmentData.distance s))
    /\ lookup "total_attempts" (segment_dict s)
       = Some (JInt (SegmentData.total_attempts s))
    /\ lookup "leader_name" (segment_dict s)
       = Some (JString (SegmentData.leader_name s))
    /\ lookup "leader_time" (segment_dict s)
       = Some (JInt (SegmentData.leader_time s))
    /\ lookup "leader_hr" (segment_dict s)
       = Some (json_of_int (SegmentData.leader_hr s))
    /\ lookup "leader_power" (segment_dict s)
       = Some (json_of_int (SegmentData.leader_power s))
    /\ lookup "leader_power_verified" (segment_dict s)
       = Some (JBool (SegmentData.leader_power_verified s))
    /\ lookup "url" (segment_dict s)
       = Some (JString ("https://www.strava.com/segments" ++ "/"
                        ++ str (SegmentData.id s))%string)
    /\ lookup "leader_activity_id" (segment_dict s) = None
    /\ (forall s',
          segment_dict s = segment_dict s' ->
          s' = SegmentData.mk
                 (SegmentData.id s) (SegmentData.name s)
                 (SegmentData.distance s) (SegmentData.total_attempts s)
                 (SegmentData.leader_name s) (SegmentData.leader_time s)
                 (SegmentData.leader_activity_id s')
                 (SegmentData.leader_hr s) (SegmentData.leader_power s)
                 (SegmentData.leader_power_verified s))
    /\ (forall t,
          lookup "leader_time" (segment_dict s) = Some (JInt t) ->
          time_text t = time_text (SegmentData.leader_time s))
    /\ time_text 125 = "2:05"%string
    /\ (forall t,
          0 <= t ->
          time_text t = (str (t / 60) ++ ":" ++ format_02d (t mod 60))%string
          /\ String.length (format_02d (t mod 60)) = 2%nat
          /\ int_of_str (str (t / 60)) = Some (t / 60)
          /\ int_of_str (format_02d (t mod 60)) = Some (t mod 60)
          /\ 60 * (t / 60) + t mod 60 = t).
Proof.
  intros s.
  repeat match goal with
         | |- _ = _ /\ _ => split; [first [reflexivity | apply int_of_str_str]|]
         end.
  split; [|split; [|split]].
  - intros s' E. destruct s, s'. cbn in *.
    injection E as Eid Ename Edist Eatt Elname Etime Ehr Epower Epv _.
    apply str_inj in Eid. apply json_of_int_inj in Ehr, Epower.
    congruence.
  - cbn. intros t [= <-]. reflexivity.
  - reflexivity.
  - intros t Ht.
    assert (Hs : 0 <= t mod 60 < 60) by (apply Z.mod_pos_bound; lia).
    destruct (format_02d_seconds _ Hs) as [Hlen Hread].
    repeat split; try assumption.
    + apply int_of_str_str.
    + symmetry. apply Z.div_mod. lia.
Qed.

(** C9, as stated, fails: the export has no [leader_activity_id], so
    two segments that differ there are exported alike and the field
    cannot be recovered. *)
Lemma export_drops_activity_id :
  segment_dict Sample.detail = segment_dict Sample.detail_other_activity
  /\ SegmentData.leader_activity_id Sample.detail
     <> SegmentData.leader_activity_id Sample.detail_other_activity
  /\ lookup "leader_activity_id" (segment_dict Sample.detail) = None.
Proof.
  split; [reflexivity|]. split; [discriminate | reflexivity].
Qed.

(** ** Tiles *)

Lemma int_of_float_floor q : (0 <= q)%Q -> int_of_float q = Qfloor q.
Proof.
  destruct q as [n d]. unfold Qle, int_of_float, Qfloor. cbn.
  intros H. apply Z.quot_div_nonneg; lia.
Qed.

Lemma range_length lo hi : List.length (range lo hi) = Z.to_nat (hi - lo).
Proof. unfold range. now rewrite length_map, length_seq. Qed.

Lemma range_nth lo hi k :
  (k < Z.to_nat (hi - lo))%nat ->
  nth_error (range lo hi) k = Some (lo + Z.of_nat k).
Proof.
  intros H. unfold range. rewrite nth_error_map, nth_error_seq.
  apply Nat.ltb_lt in H. now rewrite H.
Qed.

Lemma range_In lo hi z : In z (range lo hi) <-> lo <= z < hi.
Proof.
  unfold range. rewrite in_map_iff. split.
  - intros (k & <- & Hk). apply in_seq in Hk. lia.
  - intros H. exists (Z.to_nat (z - lo)). split; [lia|].
    apply in_seq. lia.
Qed.

Lemma NoDup_map_injective {A B} (f : A -> B) l :
  (forall a b, f a = f b -> a = b) -> NoDup l -> NoDup (map f l).
Proof.
  intros inj. induction 1 as [|a l Hin _ IH]; cbn; constructor; [|exact IH].
  rewrite in_map_iff. intros (b & E & Hb). apply inj in E. now subst.
Qed.

Lemma range_NoDup lo hi : NoDup (range lo hi).
Proof.
  unfold range. apply NoDup_map_injective; [|apply seq_NoDup].
  intros a b. lia.
Qed.

Lemma grid_length cx cy xs ys :
  List.length (grid cx cy xs ys) = (List.length xs * List.length ys)%nat.
Proof.
  induction xs as [|dx xs IH]; [reflexivity|].
  change (grid cx cy (dx :: xs) ys)
    with (map (fun dy => (cx + dx, cy + dy)) ys ++ grid cx cy xs ys).
  rewrite length_app, length_map, IH. reflexivity.
Qed.

Lemma grid_nth cx cy ys b dy :
  nth_error ys b = Some dy ->
  forall xs a dx,
    nth_error xs a = Some dx ->
    nth_error (grid cx cy xs ys) (a * List.length ys + b)
    = Some (cx + dx, cy + dy).
Proof.
  intros Hb. unfold grid.
  assert (Hlt : (b < List.length ys)%nat).
  { apply nth_error_Some. congruence. }
  induction xs as [|x xs IH]; intros a dx Ha; [now destruct a|].
  cbn [flat_map]. destruct a as [|a]; cbn [nth_error] in Ha.
  - injection Ha as ->. cbn [Nat.mul Nat.add].
    rewrite nth_error_app1 by now rewrite length_map.
    now rewrite nth_error_map, Hb.
  - rewrite nth_error_app2 by (rewrite length_map; lia).
    rewrite length_map.
    replace (S a * List.length ys + b - List.length ys)%nat
      with (a * List.length ys + b)%nat by lia.
    now apply IH.
Qed.

Lemma grid_In cx cy xs ys x y :
  In (x, y) (grid cx cy xs ys) <->
  exists dx dy, In dx xs /\ In dy ys /\ x = cx + dx /\ y = cy + dy.
Proof.
  unfold grid. rewrite in_flat_map. split.
  - intros (dx & Hdx & H). apply in_map_iff in H.
    destruct H as (dy & [= <- <-] & Hdy). now exists dx, dy.
  - intros (dx & dy & Hdx & Hdy & -> & ->). exists dx. split; [assumption|].
    apply in_map_iff. now exists dy.
Qed.

Lemma grid_NoDup cx cy xs ys :
  NoDup xs -> NoDup ys -> NoDup (grid cx cy xs ys).
Proof.
  intros Hx Hy. induction Hx as [|dx xs Hin _ IH]; [constructor|].
  change (grid cx cy (dx :: xs) ys)
    with (map (fun dy => (cx + dx, cy + dy)) ys ++ grid cx cy xs ys).
  apply NoDup_app; [|exact IH|].
  - apply NoDup_map_injective; [|exact Hy]. intros a b [= E]. lia.
  - intros [x y] H1 H2. apply in_map_iff in H1.
    destruct H1 as (dy & [= <- <-] & _).
    apply grid_In in H2. destruct H2 as (dx' & dy' & Hdx' & _ & E & _).
    assert (dx' = dx) by lia. now subst.
Qed.

Lemma tile_x_float_nonneg lon zoom :
  (-180 <= lon)%Q -> (0 <= tile_x_float lon zoom)%Q.
Proof.
  intros H. unfold tile_x_float.
  apply Qmult_le_0_compat; [|now apply Qpower_0_le].
  apply Qle_shift_div_l; [reflexivity|].
  rewrite Qmult_0_l. apply Qle_minus_iff in H. exact H.
Qed.

Lemma tile_y_float_nonneg math lat zoom :
  (0 < Math.pi math)%Q ->
  (Math.asinh math (Math.tan math (Math.radians math lat)) <= Math.pi math)%Q ->
  (0 <= tile_y_float math lat zoom)%Q.
Proof.
  intros Hpi H. unfold tile_y_float.
  apply Qmult_le_0_compat; [|now apply Qpower_0_le].
  apply Qle_shift_div_l; [reflexivity|].
  rewrite Qmult_0_l. unfold Qminus. rewrite <- Qle_minus_iff.
  apply Qle_shift_div_r; [exact Hpi|]. now rewrite Qmult_1_l.
Qed.

Lemma tenth_nonneg radius_km : (10 < radius_km)%Q -> (0 <= radius_km / 10)%Q.
Proof.
  intros H. apply Qle_shift_div_l; [reflexivity|].
  rewrite Qmult_0_l. apply Qlt_le_weak.
  now apply Qlt_trans with (y := 10%Q).
Qed.

Lemma get_surrounding_tiles_near math lat lon radius_km zoom :
  (radius_km <= 10)%Q ->
  get_surrounding_tiles math lat lon radius_km zoom
  = [latlon_to_tile math lat lon zoom].
Proof.
  intros H. unfold get_surrounding_tiles.
  destruct (latlon_to_tile math lat lon zoom) as [cx cy].
  apply Qle_bool_iff in H. now rewrite H.
Qed.

Lemma get_surrounding_tiles_far math lat lon radius_km zoom :
  (10 < radius_km)%Q ->
  let r := Z.max 1 (Qfloor (radius_km / 10)) in
  get_surrounding_tiles math lat lon radius_km zoom
  = grid (fst (latlon_to_tile math lat lon zoom))
         (snd (latlon_to_tile math lat lon zoom))
         (range (- r) (r + 1)) (range (- r) (r + 1)).
Proof.
  intros H r. unfold get_surrounding_tiles.
  destruct (latlon_to_tile math lat lon zoom) as [cx cy].
  destruct (Qle_bool radius_km 10) eqn:B.
  - apply Qle_bool_iff in B. exfalso. exact (Qlt_not_le _ _ H B).
  - rewrite (int_of_float_floor _ (tenth_nonneg _ H)). reflexivity.
Qed.

Lemma tiles_in_square cx cy r tiles :
  1 <= r ->
  tiles = grid cx cy (range (- r) (r + 1)) (range (- r) (r + 1)) ->
  let side := 2 * r + 1 in
  List.length tiles = Z.to_nat (side ^ 2)
  /\ (forall i j,
        0 <= i < side -> 0 <= j < side ->
        nth_error tiles (Z.to_nat (i * side + j))
        = Some (cx - r + i, cy - r + j))
  /\ NoDup tiles
  /\ (forall x y,
        In (x, y) tiles <-> Z.abs (x - cx) <= r /\ Z.abs (y - cy) <= r).
Proof.
  intros Hr -> side.
  assert (Hlen : List.length (range (- r) (r + 1)) = Z.to_nat side).
  { rewrite range_length. f_equal. unfold side. lia. }
  split; [|split; [|split]].
  - rewrite grid_length, Hlen, Z.pow_2_r, Z2Nat.inj_mul; lia.
  - intros i j Hi Hj.
    replace (Z.to_nat (i * side + j))
      with (Z.to_nat i * List.length (range (- r) (r + 1)) + Z.to_nat j)%nat.
    + rewrite (grid_nth cx cy _ (Z.to_nat j) (- r + j)) with (dx := - r + i).
      * f_equal. f_equal; lia.
      * rewrite range_nth by (unfold side in *; lia). f_equal. lia.
      * rewrite range_nth by (unfold side in *; lia). f_equal. lia.
    + rewrite Hlen, Z2Nat.inj_add, Z2Nat.inj_mul; nia.
  - apply grid_NoDup; apply range_NoDup.
  - intros x y. rewrite grid_In. split.
    + intros (dx & dy & Hdx & Hdy & -> & ->).
      apply range_In in Hdx, Hdy. lia.
    + intros [Hx Hy]. exists (x - cx), (y - cy).
      rewrite !range_In. lia.
Qed.

(** C1. For a longitude of at least -180 and a latitude whose
    Mercator ordinate [asinh(tan(lat_rad))] is at most pi (the range
    the tile grid covers), and for every radius: when the radius is
    at most 10 the tile mapper returns the single base tile
    [x = floor((lon+180)/360 * 2^zoom)],
    [y = floor((1 - asinh(tan(lat_rad))/pi)/2 * 2^zoom)]; otherwise,
    with [tile_radius = max(1, floor(radius/10))], it returns the
    [(2*tile_radius+1)^2] distinct tiles whose offsets from the base
    tile lie in [-tile_radius, +tile_radius] on both axes, listed by
    increasing x offset and, for equal x offset, by increasing y
    offset; for radius 25 these are the 25 tiles of the square of
    side 5 centred on the base tile. *)
Theorem tiles_around_point :
  forall math lat lon radius_km zoom,
    (-180 <= lon)%Q ->
    (0 < Math.pi math)%Q ->
    (Math.asinh math (Math.tan math (Math.radians math lat))
     <= Math.pi math)%Q ->
    let base_x := Qfloor ((lon + 180) / 360 * 2 ^ zoom) in
    let base_y :=
      Qfloor ((1 - Math.asinh math (Math.tan math (Math.radians math lat))
                   / Math.pi math) / 2 * 2 ^ zoom) in
    let tile_radius := Z.max 1 (Qfloor (radius_km / 10)) in
    let side := 2 * tile_radius + 1 in
    let tiles := get_surrounding_tiles math lat lon radius_km zoom in
    ((radius_km <= 10)%Q -> tiles = [(base_x, base_y)])
    /\ ((10 < radius_km)%Q ->
        List.length tiles = Z.to_nat (side ^ 2)
        /\ (forall i j,
              0 <= i < side -> 0 <= j < side ->
              nth_error tiles (Z.to_nat (i * side + j))
              = Some (base_x - tile_radius + i, base_y - tile_radius + j))
        /\ NoDup tiles
        /\ (forall x y,
              In (x, y) tiles <->
              Z.abs (x - base_x) <= tile_radius
              /\ Z.abs (y - base_y) <= tile_radius))
    /\ ((radius_km == 25)%Q ->
        List.length tiles = 25%nat
        /\ NoDup tiles
        /\ (forall x y,
              In (x, y) tiles <->
              Z.abs (x - base_x) <= 2 /\ Z.abs (y - base_y) <= 2)).
Proof.
  intros math lat lon radius_km zoom Hlon Hpi Hlat
         base_x base_y tile_radius side tiles.
  assert (base : latlon_to_tile math lat lon zoom = (base_x, base_y)).
  { change (latlon_to_tile math lat lon zoom)
      with (int_of_float (tile_x_float lon zoom),
            int_of_float (tile_y_float math lat zoom)).
    rewrite (int_of_float_floor _ (tile_x_float_nonneg _ zoom Hlon)).
    rewrite (int_of_float_floor _ (tile_y_float_nonneg _ _ zoom Hpi Hlat)).
    reflexivity. }
  assert (far : (10 < radius_km)%Q ->
                tiles = grid base_x base_y
                          (range (- tile_radius) (tile_radius + 1))
                          (range (- tile_radius) (tile_radius + 1))).
  { intros H. unfold tiles.
    rewrite (get_surrounding_tiles_far _ _ _ _ _ H), base. reflexivity. }
  split; [|split].
  - intros H. unfold tiles.
    now rewrite (get_surrounding_tiles_near _ _ _ _ _ H), base.
  - intros H.
    apply (tiles_in_square base_x base_y tile_radius tiles);
      [unfold tile_radius; lia | now apply far].
  - intros H.
    assert (H10 : (10 < radius_km)%Q) by (rewrite H; reflexivity).
    assert (Hr : tile_radius = 2).
    { unfold tile_radius. rewrite H. reflexivity. }
    destruct (tiles_in_square base_x base_y tile_radius tiles)
      as (Hlen & _ & Hnd & Hin); [lia | now apply far |].
    rewrite Hr in Hlen, Hin.
    split; [exact Hlen|]. split; [exact Hnd | exact Hin].
Qed.

Lemma tiles_around_point_witness :
  List.length (get_surrounding_tiles Sample.math 0 0 25 13) = 25%nat
  /\ get_surrounding_tiles Sample.math 0 0 10 13 = [(4096, 4096)].
Proof.
  destruct (tiles_around_point Sample.math 0 0 25 13) as (_ & _ & H25);
    [unfold Qle; cbn; lia | reflexivity | unfold Qle; cbn; lia |].
  destruct (tiles_around_point Sample.math 0 0 10 13) as (H10 & _);
    [unfold Qle; cbn; lia | reflexivity | unfold Qle; cbn; lia |].
  split.
  - apply H25. reflexivity.
  - apply H10. unfold Qle. cbn. lia.
Defined.

(** * Further properties *)

(** ** Batches of identifiers (lines 320-328) *)

Lemma fifty_divides n :
  (n <= 50 * ((n + 49) / 50) /\ 50 * ((n + 49) / 50) < n + 50)%nat.
Proof.
  pose proof (Nat.div_mod_eq (n + 49) 50) as E.
  pose proof (Nat.mod_upper_bound (n + 49) 50) as B. lia.
Qed.

Lemma slices_concat n :
  forall l : list Z,
    (List.length l <= 50 * n)%nat ->
    List.concat (map (fun k => firstn 50 (skipn (50 * k) l)) (seq 0 n)) = l.
Proof.
  induction n as [|n IH]; intros l H.
  - destruct l; [reflexivity | cbn in H; lia].
  - cbn [seq map List.concat]. rewrite <- seq_shift, map_map.
    change (skipn (50 * 0) l) with l.
    transitivity (firstn 50 l ++ skipn 50 l); [|apply firstn_skipn].
    f_equal.
    etransitivity; [|apply (IH (skipn 50 l)); rewrite length_skipn; lia].
    f_equal. apply map_ext. intros k.
    rewrite skipn_skipn. do 2 f_equal. lia.
Qed.

Lemma batches_length l :
  List.length (batches l) = ((List.length l + 49) / 50)%nat.
Proof. unfold batches. now rewrite length_map, length_seq. Qed.

Lemma batches_nth l k :
  (k < List.length (batches l))%nat ->
  nth k (batches l) [] = firstn 50 (skipn (50 * k) l).
Proof.
  intros H. rewrite batches_length in H. unfold batches.
  rewrite (nth_indep _ [] (firstn 50 (skipn (50 * 0) l)))
    by now rewrite length_map, length_seq.
  rewrite (map_nth (fun k => firstn 50 (skipn (50 * k) l)) (seq 0 _) 0%nat k).
  now rewrite seq_nth.
Qed.

(** X1. The batches of the detail stage partition the identifiers:
    put end to end they give the list back; there are
    [ceil(n / 50)] of them for [n] identifiers; none is empty and
    none has more than 50 identifiers; and every batch but the last
    has exactly 50. *)
Theorem batches_partition :
  forall l : list Z,
    List.concat (batches l) = l
    /\ List.length (batches l) = ((List.length l + 49) / 50)%nat
    /\ Forall (fun b => (1 <= List.length b <= 50)%nat) (batches l)
    /\ (forall k, (S k < List.length (batches l))%nat ->
                  List.length (nth k (batches l) []) = 50%nat).
Proof.
  intros l. pose proof (fifty_divides (List.length l)) as [Hle Hlt].
  split; [|split; [apply batches_length|split]].
  - apply slices_concat. exact Hle.
  - apply Forall_forall. intros b Hb.
    apply (In_nth _ _ []) in Hb. destruct Hb as (k & Hk & <-).
    rewrite batches_nth by exact Hk. rewrite batches_length in Hk.
    rewrite length_firstn, length_skipn. lia.
  - intros k Hk. rewrite batches_nth by lia. rewrite batches_length in Hk.
    rewrite length_firstn, length_skipn. lia.
Qed.

(** ** The fetchers and the session *)

Lemma requests_app tr tr' : requests (tr ++ tr') = requests tr ++ requests tr'.
Proof. apply filter_app. Qed.

Lemma get_segments_from_tile_trace net x y c region :
  requests (fst (get_segments_from_tile net x y c region))
  = [tile_request c region (x, y)]
  /\ (forall e, snd (get_segments_from_tile net x y c region) = Raise e
                <-> segment_tile net region x y = Raise e).
Proof.
  unfold get_segments_from_tile, tile_request.
  destruct (segment_tile net region x y) as [r|e0]; cbn [emit lift bind].
  - destruct (tile_status r =? 200).
    + destruct (option_map all_ids (tile_json r)) as [[ids|]|];
        [| destruct (tile_layers r) | destruct (tile_layers r)];
        cbn; (split; [reflexivity | intros e; split; discriminate]).
    + cbn. split; [reflexivity | intros e; split; discriminate].
  - cbn. split; [reflexivity | intros e; split; congruence].
Qed.



(** ** The order of the requests *)


Lemma for_extend_raises {A B} (f : A -> M (list B)) pre a post e :
  (forall x, In x pre -> exists bs, snd (f x) = Return bs) ->
  snd (f a) = Raise e ->
  for_extend f (pre ++ a :: post)
  = (flat_map (fun x => fst (f x)) pre ++ fst (f a), Raise e).
Proof.
  intros total bad. induction pre as [|x pre IH].
  - cbn [app for_extend flat_map]. destruct (f a) as [tr o].
    cbn in bad. subst o. reflexivity.
  - cbn [app for_extend flat_map].
    rewrite IH by (intros; apply total; now right).
    destruct (total x (or_introl eq_refl)) as [bs Hbs].
    destruct (f x) as [tr o]. cbn in Hbs. subst o. cbn.
    now rewrite app_assoc.
Qed.

Lemma requests_flat_map {A} (f : A -> list event) (g : A -> list event) l :
  (forall a, requests (f a) = g a) ->
  requests (flat_map f l) = flat_map g l.
Proof.
  intros H. induction l as [|a l IH]; [reflexivity|].
  cbn [flat_map]. now rewrite requests_app, H, IH.
Qed.

Lemma flat_map_singleton {A B} (f : A -> B) l :
  flat_map (fun a => [f a]) l = map f l.
Proof. induction l as [|a l IH]; [reflexivity|]. cbn. now rewrite IH. Qed.







(** X4. An exception of the session during a tile request is not
    caught by the analysis: the analysis raises it, the tiles after
    the failing one are not requested, and neither details nor pages
    are. *)
Theorem tile_failure_aborts :
  forall net pre t post c region_id e,
    (forall x, In x pre ->
               exists r, segment_tile net region_id (fst x) (snd x) = Return r) ->
    segment_tile net region_id (fst t) (snd t) = Raise e ->
    snd (analyze_segments net (pre ++ t :: post) c region_id) = Raise e
    /\ requests (fst (analyze_segments net (pre ++ t :: post) c region_id))
       = map (tile_request c region_id) (pre ++ [t]).
Proof.
  intros net pre t post c region e Hpre Hbad.
  set (fetch := fun t : Z * Z =>
                  get_segments_from_tile net (fst t) (snd t) c region).
  assert (Tpre : forall x, In x pre -> exists bs, snd (fetch x) = Return bs).
  { intros x Hx. destruct (Hpre x Hx) as [r Hr]. unfold fetch.
    destruct (snd (get_segments_from_tile net (fst x) (snd x) c region))
      as [bs|e'] eqn:E; [now exists bs|].
    apply get_segments_from_tile_trace in E. congruence. }
  assert (Tbad : snd (fetch t) = Raise e).
  { unfold fetch. now apply get_segments_from_tile_trace. }
  unfold analyze_segments. fold fetch.
  rewrite (for_extend_raises fetch pre t post e Tpre Tbad). cbn [bind fst snd].
  split; [reflexivity|].
  rewrite requests_app, map_app.
  rewrite (requests_flat_map _ (fun t => [tile_request c region t])).
  - rewrite flat_map_singleton. f_equal.
    destruct t as [x y]. apply get_segments_from_tile_trace.
  - intros [x y]. apply get_segments_from_tile_trace.
Qed.

Lemma tile_failure_aborts_witness :
  snd (analyze_segments
         (Sample.failing_at 1)
         ([(0, 0)] ++ (1, 0) :: [(2, 0)]) Sample.criteria 34576447)
  = Raise ClientError.
Proof.
  apply (tile_failure_aborts
           (Sample.failing_at 1)
           [(0, 0)] (1, 0) [(2, 0)] Sample.criteria 34576447 ClientError).
  - intros x [<-|[]]. eexists. reflexivity.
  - reflexivity.
Defined.

(** ** The run as a whole *)

Lemma bind_Forall {A B} (P : event -> Prop) (m : M A) (k : A -> M B) :
  Forall P (fst m) -> (forall a, Forall P (fst (k a))) ->
  Forall P (fst (bind m k)).
Proof.
  intros Hm Hk. rewrite bind_trace. apply Forall_app. split; [exact Hm|].
  destruct (snd m); [apply Hk | constructor].
Qed.

Lemma catch_Forall {A} (P : event -> Prop) (m : M A) (h : exn -> M A) :
  Forall P (fst m) -> (forall e, Forall P (fst (h e))) ->
  Forall P (fst (catch m h)).
Proof.
  intros Hm Hh. rewrite catch_trace. apply Forall_app. split; [exact Hm|].
  destruct (snd m); [constructor | apply Hh].
Qed.

Lemma for_extend_Forall {A B} (P : event -> Prop) (f : A -> M (list B)) l :
  (forall a, Forall P (fst (f a))) -> Forall P (fst (for_extend f l)).
Proof.
  intros Hf. induction l as [|a l IH]; [constructor|].
  cbn [for_extend]. apply bind_Forall; [apply Hf|]. intros bs.
  apply bind_Forall; [exact IH|]. intros rest. constructor.
Qed.

Ltac no_output :=
  repeat first
    [ apply bind_Forall; [|intros ?]
    | apply catch_Forall; [|intros ?]
    | apply for_extend_Forall; intros ?
    | match goal with
      | |- Forall _ (fst (if ?b then _ else _)) => destruct b
      | |- Forall _ (fst (match ?o with _ => _ end)) => destruct o
      | |- Forall _ (fst (let '(_, _) := ?p in _)) => destruct p
      end
    | progress cbn [emit ret lift raise fst]
    | constructor; [reflexivity|]
    | constructor ].

Lemma analyze_segments_writes_nothing net tiles c region :
  Forall (fun e => is_output e = false)
         (fst (analyze_segments net tiles c region)).
Proof.
  unfold analyze_segments, analyze_details, process_segment, evaluate,
    extract, getitem, get_leader_stats, get_segment_details,
    get_segments_from_tile.
  no_output.
Qed.

Lemma parse_location_outcome float location :
  (exists lat lon, parse_location float location = Return (lat, lon))
  \/ parse_location float location = Raise ValueError.
Proof.
  unfold parse_location.
  destruct (split "," location) as [|a [|b [|? ?]]]; auto.
  destruct (float (strip a)); auto. destruct (float (strip b)); eauto.
Qed.

Lemma run_analysis_located math float net args lat lon :
  parse_location float (location args) = Return (lat, lon) ->
  let tiles := get_surrounding_tiles math lat lon (radius args) 13 in
  let analysis :=
    analyze_segments net tiles (criteria_of args) (region_id_of args) in
  run_analysis math float net args
  = ([ConsolePrint (MsgSearching lat lon (radius args));
      ConsolePrint (MsgTiles (List.length tiles))]
     ++ fst analysis
     ++ match snd analysis with
        | Raise _ => []
        | Return [] => [ConsolePrint MsgNoWinnable]
        | Return (s :: rest) =>
            [ConsolePrint (MsgWinnable (List.length (s :: rest)));
             ConsolePrint (MsgTable (map table_row (s :: rest)))]
            ++ match output args with
               | Some path =>
                   [WriteOutput path (map segment_dict (s :: rest));
                    ConsolePrint (MsgSaved path)]
               | None => []
               end
        end,
     match snd analysis with
     | Raise e => Raise e
     | Return _ => Return tt
     end).
Proof.
  intros P tiles analysis. unfold run_analysis. rewrite P.
  cbn [lift bind catch_ValueError emit ret app].
  fold tiles. fold analysis.
  destruct analysis as [tr [[|s rest]|e]]; cbn [bind fst snd emit ret app].
  - reflexivity.
  - destruct (output args) as [path|]; cbn; rewrite ?app_nil_r; reflexivity.
  - now rewrite app_nil_r.
Qed.

Lemma outputs_app tr tr' : outputs (tr ++ tr') = outputs tr ++ outputs tr'.
Proof. apply flat_map_app. Qed.

Lemma outputs_none tr :
  Forall (fun e => is_output e = false) tr -> outputs tr = [].
Proof.
  induction 1 as [|e tr He _ IH]; [reflexivity|].
  destruct e; try discriminate; exact IH.
Qed.


(** X6. A run writes at most one file, and it writes one exactly
    when the location is valid, the analysis returns at least one
    segment and an output path was given; the file then holds the
    export of the returned segments, in order.  In particular an
    empty result never touches the output file. *)
Theorem output_written_for_results_only :
  forall math float net args,
    outputs (fst (run_analysis math float net args))
    = match parse_location float (location args) with
      | Return (lat, lon) =>
          match snd (analyze_segments net
                       (get_surrounding_tiles math lat lon (radius args) 13)
                       (criteria_of args) (region_id_of args)),
                output args with
          | Return (s :: rest), Some path =>
              [(path, map segment_dict (s :: rest))]
          | _, _ => []
          end
      | Raise _ => []
      end.
Proof.
  intros math float net args.
  destruct (parse_location_outcome float (location args))
    as [(lat & lon & P)|P].
  - rewrite (run_analysis_located _ _ _ _ _ _ P), P. cbn [fst].
    rewrite !outputs_app.
    rewrite (outputs_none _ (analyze_segments_writes_nothing _ _ _ _)).
    cbn [outputs flat_map app].
    destruct (snd (analyze_segments net
                     (get_surrounding_tiles math lat lon (radius args) 13)
                     (criteria_of args) (region_id_of args)))
      as [[|s rest]|e]; try reflexivity.
    destruct (output args); reflexivity.
  - unfold run_analysis. rewrite P. reflexivity.
Qed.

(** ** What the analysis returns *)

Lemma evaluate_appended net c d0 d :
  In d (appended (evaluate net c d0)) ->
  basic_gate c d0 = true
  /\ exists st,
       snd (get_leader_stats net (SegmentData.id d0)) = Return st
       /\ d = with_stats d0 st
       /\ over_ceiling (SegmentCriteria.max_heart_rate c) (fst (fst st)) = false
       /\ over_ceiling (SegmentCriteria.max_power c) (snd (fst st)) = false.
Proof.
  unfold appended, evaluate.
  destruct (basic_gate c d0); [|intros []].
  rewrite bind_outcome.
  destruct (snd (get_leader_stats net (SegmentData.id d0)))
    as [[[hr power] pv]|e]; [|intros []].
  destruct (over_ceiling (SegmentCriteria.max_heart_rate c) hr) eqn:Oh;
    [intros []|].
  destruct (over_ceiling (SegmentCriteria.max_power c) power) eqn:Op;
    [intros []|].
  intros [<-|[]]. split; [reflexivity|].
  exists (hr, power, pv). cbn. auto.
Qed.

Lemma process_segment_appended net c s d :
  In d (appended (process_segment net c s)) ->
  exists d0, snd (extract s) = Return (Some d0)
             /\ In d (appended (evaluate net c d0)).
Proof.
  unfold appended at 1. unfold process_segment.
  rewrite catch_outcome, bind_outcome.
  destruct (snd (extract s)) as [[d0|]|e]; cbn [snd ret].
  - intros H. exists d0. split; [reflexivity|]. unfold appended.
    destruct (snd (evaluate net c d0)); [exact H | destruct H].
  - intros [].
  - intros [].
Qed.

Lemma analyze_details_appended net c segment_details :
  appended (analyze_details net c segment_details)
  = flat_map (fun s => appended (process_segment net c s)) segment_details.
Proof.
  unfold analyze_details.
  now rewrite for_extend_total by apply process_segment_returns.
Qed.

Lemma analyze_segments_appended net tiles c region d :
  In d (appended (analyze_segments net tiles c region)) ->
  exists segment_details,
    In d (appended (analyze_details net c segment_details)).
Proof.
  unfold appended at 1. unfold analyze_segments. rewrite bind_outcome.
  match goal with |- context [snd (for_extend ?f tiles)] =>
    destruct (snd (for_extend f tiles)) as [ids|e] end; [|intros []].
  destruct (dedupe ids) as [|i rest]; [intros []|].
  rewrite bind_outcome. cbn [emit snd]. rewrite bind_outcome.
  destruct (snd (for_extend (get_segment_details net) (batches (i :: rest))))
    as [details|e]; [|intros []].
  intros H. exists details. exact H.
Qed.

Lemma basic_gate_with_stats c d st :
  basic_gate c (with_stats d st) = basic_gate c d.
Proof. destruct st as [[hr power] pv]. reflexivity. Qed.

Lemma winnable_in_details net c segment_details d :
  In d (appended (analyze_details net c segment_details)) ->
  (basic_gate c d = true
   /\ under_ceiling (SegmentCriteria.max_heart_rate c) (SegmentData.leader_hr d)
   /\ under_ceiling (SegmentCriteria.max_power c) (SegmentData.leader_power d)
   /\ (SegmentData.leader_power_verified d = true ->
       SegmentData.leader_power d <> None))
  /\ In (SegmentData.id d)
        (page_requests (fst (analyze_details net c segment_details))).
Proof.
  rewrite analyze_details_appended, in_flat_map.
  intros (s & Hs & Hd).
  apply process_segment_appended in Hd. destruct Hd as (d0 & E & Hd).
  apply evaluate_appended in Hd.
  destruct Hd as (G & [[hr power] pv] & S & -> & Oh & Op). cbn in Oh, Op.
  split.
  - rewrite basic_gate_with_stats. cbn.
    rewrite <- !over_ceiling_false. repeat split; try assumption.
    apply (get_leader_stats_verified net (SegmentData.id d0) (hr, power, pv) S).
  - rewrite analyze_details_requests. apply in_map_iff. exists d0.
    split; [reflexivity|]. apply filter_In. split; [|exact G].
    unfold extracted. apply in_flat_map. exists s. split; [exact Hs|].
    rewrite E. now left.
Qed.

(** X7. Every segment the analysis returns meets the criteria: it
    passes the basic gate; for heart rate and for power its value
    passes the ceiling (the ceiling is unset or zero, or the value is
    present, non-zero and at most the ceiling); if its power is
    marked verified, it has a power value; and its leaderboard page
    was requested. *)
Theorem winnable_meet_criteria :
  forall net c,
    (forall segment_details d,
        In d (appended (analyze_details net c segment_details)) ->
        (basic_gate c d = true
         /\ under_ceiling (SegmentCriteria.max_heart_rate c)
                          (SegmentData.leader_hr d)
         /\ under_ceiling (SegmentCriteria.max_power c)
                          (SegmentData.leader_power d)
         /\ (SegmentData.leader_power_verified d = true ->
             SegmentData.leader_power d <> None))
        /\ In (SegmentData.id d)
              (page_requests (fst (analyze_details net c segment_details))))
    /\ (forall tiles region_id d,
          In d (appended (analyze_segments net tiles c region_id)) ->
          basic_gate c d = true
          /\ under_ceiling (SegmentCriteria.max_heart_rate c)
                           (SegmentData.leader_hr d)
          /\ under_ceiling (SegmentCriteria.max_power c)
                           (SegmentData.leader_power d)
          /\ (SegmentData.leader_power_verified d = true ->
              SegmentData.leader_power d <> None)).
Proof.
  intros net c. split.
  - apply winnable_in_details.
  - intros tiles region d H.
    apply analyze_segments_appended in H. destruct H as [details H].
    now apply winnable_in_details in H.
Qed.

(** ** Details without a usable leader *)



Lemma analyze_details_trace net c segment_details :
  fst (analyze_details net c segment_details)
  = flat_map (fun s => fst (process_segment net c s)) segment_details.
Proof.
  unfold analyze_details.
  now rewrite for_extend_total by apply process_segment_returns.
Qed.



(** ** More on tiles *)






Lemma tile_radius_grows r r' :
  (10 < r)%Q -> (r <= r')%Q ->
  Z.max 1 (Qfloor (r / 10)) <= Z.max 1 (Qfloor (r' / 10)).
Proof.
  intros _ H. apply Z.max_le_compat_l, Qfloor_resp_le.
  apply Qmult_le_compat_r; [exact H | unfold Qle; cbn; lia].
Qed.

Lemma base_in_surrounding math lat lon radius_km zoom :
  In (latlon_to_tile math lat lon zoom)
     (get_surrounding_tiles math lat lon radius_km zoom).
Proof.
  destruct (Qlt_le_dec 10 radius_km) as [H|H].
  - rewrite (get_surrounding_tiles_far _ _ _ _ _ H).
    destruct (latlon_to_tile math lat lon zoom) as [cx cy]. cbn [fst snd].
    apply grid_In. exists 0, 0. rewrite !range_In. lia.
  - rewrite (get_surrounding_tiles_near _ _ _ _ _ H). now left.
Qed.

(** X10. The tiles grow with the radius: every tile searched for a
    radius is also searched for any larger radius, and the base tile
    is searched for every radius. *)
Theorem tiles_grow_with_radius :
  forall math lat lon r r' zoom,
    (r <= r')%Q ->
    incl (get_surrounding_tiles math lat lon r zoom)
         (get_surrounding_tiles math lat lon r' zoom)
    /\ In (latlon_to_tile math lat lon zoom)
          (get_surrounding_tiles math lat lon r zoom).
Proof.
  intros math lat lon r r' zoom H. split; [|apply base_in_surrounding].
  destruct (Qlt_le_dec 10 r) as [Hr|Hr].
  - assert (Hr' : (10 < r')%Q) by now apply Qlt_le_trans with (y := r).
    pose proof (tile_radius_grows r r' Hr H) as Hrad.
    rewrite (get_surrounding_tiles_far _ _ _ _ _ Hr),
            (get_surrounding_tiles_far _ _ _ _ _ Hr').
    intros [x y]. rewrite !grid_In.
    intros (dx & dy & Hdx & Hdy & -> & ->). exists dx, dy.
    apply range_In in Hdx, Hdy.
    split; [apply range_In; lia|]. split; [apply range_In; lia|].
    split; reflexivity.
  - rewrite (get_surrounding_tiles_near _ _ _ _ _ Hr).
    intros t [<-|[]]. apply base_in_surrounding.
Qed.

Lemma tiles_grow_with_radius_witness :
  incl (get_surrounding_tiles Sample.math 0 0 10 13)
       (get_surrounding_tiles Sample.math 0 0 25 13).
Proof.
  apply (tiles_grow_with_radius Sample.math 0 0 10 25 13).
  unfold Qle. cbn. lia.
Defined.

(** ** Scraped numbers *)

Lemma take_digits_digits s : all_chars is_digit (take_digits s) = true.
Proof.
  induction s as [|c s IH]; [reflexivity|]. cbn [take_digits].
  destruct (is_digit c) eqn:D; [|reflexivity]. cbn. now rewrite D.
Qed.

Lemma search_digits_digits s g :
  search_digits s = Some g -> all_chars is_digit g = true.
Proof.
  induction s as [|c s IH]; [discriminate|]. cbn [search_digits].
  destruct (is_digit c) eqn:D; [|exact IH].
  intros [= <-]. apply (take_digits_digits (String c s)).
Qed.

Lemma search_abbr_digits label s g :
  search_abbr label s = Some g -> all_chars is_digit g = true.
Proof.
  assert (at_start : forall t g', abbr_at label t = Some g' ->
                                  all_chars is_digit g' = true).
  { intros t g'. unfold abbr_at.
    pose proof (take_digits_digits t) as D.
    destruct (take_digits t) as [|c r]; [discriminate|].
    destruct (drop_prefix_ci "<abbr" _) as [rest|]; [|discriminate].
    destruct (exists_at _ _); [|discriminate].
    now intros [= <-]. }
  induction s as [|c s IH]; cbn [search_abbr].
  - destruct (abbr_at label EmptyString) eqn:A; [|discriminate].
    intros [= <-]. now apply (at_start EmptyString).
  - destruct (abbr_at label (String c s)) eqn:A.
    + intros [= <-]. now apply (at_start (String c s)).
    + exact IH.
Qed.

Lemma int_of_digits_nonnegative g :
  all_chars is_digit g = true -> 0 <= int_of_digits g.
Proof.
  unfold int_of_digits.
  assert (gen : forall acc, 0 <= acc -> all_chars is_digit g = true ->
                  0 <= fold_left
                         (fun acc c => 10 * acc + (Z.of_nat (nat_of_ascii c) - 48))
                         (list_ascii_of_string g) acc).
  { induction g as [|c g IH]; intros acc Hacc D; [exact Hacc|].
    cbn [all_chars] in D. apply andb_true_iff in D. destruct D as [Dc Dg].
    cbn [list_ascii_of_string fold_left]. apply IH; [|exact Dg].
    unfold is_digit in Dc. apply andb_true_iff in Dc.
    destruct Dc as [Lo _]. apply Nat.leb_le in Lo. lia. }
  apply gen. lia.
Qed.

Lemma scan_cell_nonnegative st cell :
  stats_nonnegative st -> stats_nonnegative (scan_cell st cell).
Proof.
  destruct st as [[hr power] pv]. unfold scan_cell, stats_nonnegative.
  intros [Hh Hp].
  assert (Hh' : forall h,
             (if contains "bpm" (Soup.get_text cell)
              then match search_digits (Soup.get_text cell) with
                   | Some g => Some (int_of_digits g)
                   | None => hr
                   end
              else hr) = Some h -> 0 <= h).
  { intros h. destruct (contains "bpm" (Soup.get_text cell)); [|apply Hh].
    destruct (search_digits (Soup.get_text cell)) as [g|] eqn:S; [|apply Hh].
    intros [= <-].
    apply int_of_digits_nonnegative, (search_digits_digits _ _ S). }
  destruct (contains "W" (Soup.get_text cell) && _); [|now split].
  destruct (search_digits (Soup.get_text cell)) as [g|] eqn:S; [|now split].
  split; [exact Hh'|].
  intros p [= <-].
  apply int_of_digits_nonnegative, (search_digits_digits _ _ S).
Qed.

Lemma scan_cells_nonnegative cells :
  forall st, stats_nonnegative st ->
             stats_nonnegative (fold_left scan_cell cells st).
Proof.
  induction cells as [|cell cells IH]; intros st inv; [exact inv|].
  cbn [fold_left]. apply IH. now apply scan_cell_nonnegative.
Qed.

Lemma regex_fallback_nonnegative html : stats_nonnegative (regex_fallback html).
Proof.
  unfold regex_fallback, stats_nonnegative. split.
  - intros h. destruct (search_abbr "beats per minute" html) as [g|] eqn:S;
      [|discriminate].
    intros [= <-].
    apply int_of_digits_nonnegative, (search_abbr_digits _ _ _ S).
  - intros p. destruct (search_abbr "watts" html) as [g|] eqn:S;
      [|discriminate].
    intros [= <-].
    apply int_of_digits_nonnegative, (search_abbr_digits _ _ _ S).
Qed.

(** X11. Whatever the page holds, a heart rate or a power value
    returned by the leader-stats scrape is never negative: both
    tiers read a run of decimal digits, so a sign in front of the
    number is not taken. *)
Theorem scraped_values_nonnegative :
  forall net segment_id st,
    snd (get_leader_stats net segment_id) = Return st ->
    stats_nonnegative st.
Proof.
  intros net i st. unfold get_leader_stats.
  rewrite bind_outcome. cbn [emit snd]. rewrite bind_outcome. cbn [lift snd].
  destruct (segment_page net i) as [r|e]; [|discriminate].
  destruct (status r =? 200).
  - rewrite bind_outcome. cbn [lift snd]. unfold table_stats.
    destruct (find_leaderboard (soup r)) as [table|].
    + destruct (Soup.find (Soup.is_tag "tbody") table) as [tbody|];
        [|discriminate].
      destruct (Soup.find (Soup.is_tag "tr") tbody) as [row|].
      * intros [= <-]. apply scan_cells_nonnegative.
        split; discriminate.
      * intros [= <-]. apply regex_fallback_nonnegative.
    + intros [= <-]. apply regex_fallback_nonnegative.
  - intros [= <-]. split; discriminate.
Qed.

Lemma scraped_values_nonnegative_witness :
  stats_nonnegative (Some 150, Some 320, true).
Proof.
  apply (scraped_values_nonnegative
           (Sample.serving (Return Sample.page_with_row)) 7).
  reflexivity.
Defined.

(** ** Accepted locations *)







(** ** The analysis as a whole *)

(** X13. The analysis of details treats each detail on its own: for
    a list made of two parts, the trace is the trace of the first
    part followed by that of the second, and the segments returned
    are those of the first part followed by those of the second. *)
Theorem analyze_details_composes :
  forall net c first_part second_part,
    analyze_details net c (first_part ++ second_part)
    = (fst (analyze_details net c first_part)
       ++ fst (analyze_details net c second_part),
       Return (appended (analyze_details net c first_part)
               ++ appended (analyze_details net c second_part))).
Proof.
  intros net c l1 l2.
  rewrite !analyze_details_appended, !analyze_details_trace.
  unfold analyze_details.
  rewrite for_extend_total by apply process_segment_returns.
  now rewrite !flat_map_app.
Qed.

Lemma process_segment_cost net c s :
  (List.length (appended (process_segment net c s))
   <= List.length (page_requests (fst (process_segment net c s))) <= 1)%nat.
Proof.
  rewrite process_segment_requests.
  destruct (appended (process_segment net c s)) as [|d l] eqn:A.
  - cbn [List.length].
    destruct (snd (extract s)) as [[d0|]|e]; cbn; try lia.
    destruct (basic_gate c d0); cbn; lia.
  - assert (Hin : In d (appended (process_segment net c s)))
      by (rewrite A; now left).
    apply process_segment_appended in Hin.
    destruct Hin as (d0 & E & Hin).
    pose proof Hin as Hev. apply evaluate_appended in Hev.
    destruct Hev as (G & st & S & _).
    assert (Al : appended (process_segment net c s)
                 = appended (evaluate net c d0)).
    { unfold appended at 1. unfold process_segment.
      rewrite catch_outcome, bind_outcome, E. cbn [snd].
      unfold appended. now destruct (snd (evaluate net c d0)). }
    rewrite E, G. rewrite <- A, Al.
    unfold appended, evaluate. rewrite G, bind_outcome, S.
    destruct st as [[hr power] pv].
    destruct (over_ceiling (SegmentCriteria.max_heart_rate c) hr);
      [cbn; lia|].
    destruct (over_ceiling (SegmentCriteria.max_power c) power); cbn; lia.
Qed.

(** X14. The analysis requests at most one leaderboard page per
    detail and returns at most one segment per page requested. *)
Theorem analysis_cost_bound :
  forall net c segment_details,
    (List.length (appended (analyze_details net c segment_details))
     <= List.length (page_requests
                       (fst (analyze_details net c segment_details)))
     <= List.length segment_details)%nat.
Proof.
  intros net c details.
  rewrite analyze_details_appended, analyze_details_trace.
  induction details as [|s l IH]; [cbn; lia|].
  cbn [flat_map List.length].
  rewrite page_requests_app, !length_app.
  pose proof (process_segment_cost net c s). lia.
Qed.

(** ** More on deduplication *)

Lemma filter_all {A} (p : A -> bool) l :
  (forall a, In a l -> p a = true) -> filter p l = l.
Proof.
  induction l as [|a l IH]; [reflexivity|]. intros H. cbn [filter].
  rewrite (H a (or_introl eq_refl)), IH; [reflexivity|].
  intros b Hb. apply H. now right.
Qed.

Lemma dedupe_of_distinct l : NoDup l -> dedupe l = l.
Proof.
  induction 1 as [|x l Hx _ IH]; [reflexivity|].
  rewrite dedupe_cons, IH. f_equal. apply filter_all.
  intros a Ha. apply negb_true_iff, Z.eqb_neq. congruence.
Qed.

(** X15. Deduplication leaves a list alone exactly when the list has
    no repeated identifier; applying it twice is the same as applying
    it once; and it never makes the list longer. *)
Theorem dedupe_fixed_point :
  forall l : list Z,
    (dedupe l = l <-> NoDup l)
    /\ dedupe (dedupe l) = dedupe l
    /\ (List.length (dedupe l) <= List.length l)%nat.
Proof.
  intros l. split; [|split].
  - split; [intros <-; apply dedupe_NoDup | apply dedupe_of_distinct].
  - apply dedupe_of_distinct, dedupe_NoDup.
  - induction l as [|x l IH]; [reflexivity|].
    rewrite dedupe_cons. cbn [List.length].
    pose proof (filter_length_le (fun k => negb (k =? x)) (dedupe l)). lia.
Qed.

(** ** No segments found *)

Ltac trace_forall :=
  repeat first
    [ apply bind_Forall; [|intros ?]
    | apply catch_Forall; [|intros ?]
    | apply for_extend_Forall; intros ?
    | match goal with
      | |- Forall _ (fst (if ?b then _ else _)) => destruct b
      | |- Forall _ (fst (match ?o with _ => _ end)) => destruct o
      | |- Forall _ (fst (let '(_, _) := ?p in _)) => destruct p
      end
    | progress cbn [emit ret lift raise fst]
    | constructor; [first [reflexivity | discriminate]|]
    | constructor ].

Lemma tile_stage_trace net c region tiles :
  Forall (fun e => tile_stage_event e = true)
         (fst (for_extend
                 (fun t => get_segments_from_tile net (fst t) (snd t) c region)
                 tiles)).
Proof. unfold get_segments_from_tile. trace_forall. Qed.

Lemma later_stages_trace net c ids :
  Forall (fun e => e <> ConsolePrint MsgNoSegments)
         (fst (segment_details <-
                 for_extend (get_segment_details net) (batches ids) ;;
               analyze_details net c segment_details)).
Proof.
  unfold analyze_details, process_segment, evaluate, extract, getitem,
    get_leader_stats, get_segment_details.
  trace_forall.
Qed.

Lemma dedupe_nil l : dedupe l = [] <-> l = [].
Proof.
  split; [|now intros ->]. destruct l as [|x l]; [reflexivity|].
  rewrite dedupe_cons. discriminate.
Qed.

(** X16. The analysis reports that no segments were found exactly
    when every tile was fetched and none gave an identifier; it then
    returns the empty list without asking for any detail or page. *)
Theorem no_segments_reported_iff :
  forall net tiles c region_id,
    (In (ConsolePrint MsgNoSegments)
        (fst (analyze_segments net tiles c region_id))
     <-> snd (for_extend
                (fun t => get_segments_from_tile net (fst t) (snd t) c region_id)
                tiles) = Return [])
    /\ (snd (for_extend
               (fun t => get_segments_from_tile net (fst t) (snd t) c region_id)
               tiles) = Return [] ->
        snd (analyze_segments net tiles c region_id) = Return []
        /\ details_requests (fst (analyze_segments net tiles c region_id)) = []
        /\ page_requests (fst (analyze_segments net tiles c region_id)) = []).
Proof.
  intros net tiles c region.
  pose proof (tile_stage_trace net c region tiles) as Ht.
  unfold analyze_segments.
  destruct (for_extend
              (fun t => get_segments_from_tile net (fst t) (snd t) c region)
              tiles) as [tr [ids|e]]; cbn [fst snd] in *.
  - assert (quiet : ~ In (ConsolePrint MsgNoSegments) tr).
    { intros Hin. rewrite Forall_forall in Ht. now apply Ht in Hin. }
    assert (nodetails : details_requests tr = [] /\ page_requests tr = []).
    { clear quiet. induction Ht as [|e tr He _ IH]; [now split|].
      destruct e as [| | |[]|]; try discriminate; exact IH. }
    cbn [bind].
    destruct (dedupe ids) as [|i rest] eqn:D.
    + apply (proj1 (dedupe_nil ids)) in D. subst ids.
      cbn [emit ret bind fst snd].
      split.
      * split; [reflexivity|]. intros _. apply in_or_app. right. now left.
      * intros _. split; [reflexivity|].
        unfold details_requests, page_requests in *.
        rewrite !flat_map_app. destruct nodetails as [-> ->]. now split.
    + pose proof (later_stages_trace net c (i :: rest)) as Hl.
      assert (ids <> []) by (intros ->; discriminate).
      split; [|intros [= ?]; contradiction].
      split; [|intros [= ?]; contradiction].
      intros Hin. exfalso.
      cbn [emit bind] in Hin.
      destruct (segment_details <-
                  for_extend (get_segment_details net) (batches (i :: rest)) ;;
                analyze_details net c segment_details) as [tr' o].
      cbn [fst app] in Hin, Hl.
      apply in_app_or in Hin. destruct Hin as [Hin|[Hin|Hin]].
      * contradiction.
      * discriminate.
      * rewrite Forall_forall in Hl. now apply Hl in Hin.
  - split; [|discriminate]. split; [|discriminate].
    cbn [bind fst]. intros Hin. rewrite Forall_forall in Ht.
    now apply Ht in Hin.
Qed.

(** ** Segment addresses *)

Lemma append_cancel_l p x y : (p ++ x = p ++ y)%string -> x = y.
Proof.
  induction p as [|c p IH]; [trivial|]. cbn. intros [= H]. now apply IH.
Qed.

(** X17. The address shown and exported for a segment identifies it:
    two segments have the same address exactly when they have the
    same id. *)
Theorem segment_url_identifies :
  forall a b, segment_url a = segment_url b <-> a = b.
Proof.
  intros a b. split; [|now intros ->].
  unfold segment_url. intros H. apply append_cancel_l in H.
  now apply str_inj.
Qed.

(** ** The distance bounds sent with a tile request *)

Lemma int_of_float_opp q : int_of_float (- q) = - int_of_float q.
Proof.
  destruct q as [n d]. unfold int_of_float. cbn. apply Z.quot_opp_l. lia.
Qed.

Lemma int_of_float_monotone q q' :
  (q <= q')%Q -> int_of_float q <= int_of_float q'.
Proof.
  intros H.
  destruct (Qlt_le_dec q 0) as [Hq|Hq]; destruct (Qlt_le_dec q' 0) as [Hq'|Hq'].
  - assert (Hn : (0 <= - q)%Q).
    { apply Qlt_le_weak in Hq. apply Qopp_le_compat in Hq. exact Hq. }
    assert (Hn' : (0 <= - q')%Q).
    { apply Qlt_le_weak in Hq'. apply Qopp_le_compat in Hq'. exact Hq'. }
    pose proof (int_of_float_opp q) as E. pose proof (int_of_float_opp q') as E'.
    rewrite (int_of_float_floor _ Hn) in E.
    rewrite (int_of_float_floor _ Hn') in E'.
    pose proof (Qfloor_resp_le _ _ (Qopp_le_compat _ _ H)). lia.
  - assert (Hn : (0 <= - q)%Q).
    { apply Qlt_le_weak in Hq. apply Qopp_le_compat in Hq. exact Hq. }
    pose proof (int_of_float_opp q) as E.
    rewrite (int_of_float_floor _ Hn) in E.
    rewrite (int_of_float_floor _ Hq').
    pose proof (Qfloor_resp_le _ _ Hn) as F.
    pose proof (Qfloor_resp_le _ _ Hq') as F'.
    change (Qfloor 0) with 0 in F, F'. lia.
  - exfalso. apply (Qlt_not_le _ _ Hq').
    now apply Qle_trans with (y := q).
  - rewrite (int_of_float_floor _ Hq), (int_of_float_floor _ Hq').
    now apply Qfloor_resp_le.
Qed.

(** X18. The distance bounds sent with a tile request keep the order
    of the criteria: when the minimum distance is at most the maximum
    distance, the [distance_min] parameter is at most the
    [distance_max] parameter; and for a minimum distance that is not
    negative, neither parameter is negative. *)
Theorem tile_request_bounds :
  forall c region_id t,
    (SegmentCriteria.min_distance c <= SegmentCriteria.max_distance c)%Q ->
    exists distance_max distance_min,
      tile_request c region_id t
      = TileRequest region_id 13 (fst t) (snd t) distance_max distance_min
      /\ distance_min <= distance_max
      /\ ((0 <= SegmentCriteria.min_distance c)%Q ->
          0 <= distance_min /\ 0 <= distance_max).
Proof.
  intros c region t H. unfold tile_request. eexists _, _.
  split; [reflexivity|].
  assert (Hs : (0 <= 1094 # 1000)%Q) by (unfold Qle; cbn; lia).
  assert (M : int_of_float (SegmentCriteria.min_distance c * (1094 # 1000))
              <= int_of_float (SegmentCriteria.max_distance c * (1094 # 1000))).
  { apply int_of_float_monotone. now apply Qmult_le_compat_r. }
  split; [exact M|]. intros H0.
  assert (Z0 : 0 <= int_of_float
                      (SegmentCriteria.min_distance c * (1094 # 1000))).
  { change 0 with (int_of_float 0). apply int_of_float_monotone.
    now apply Qmult_le_0_compat. }
  lia.
Qed.

Lemma tile_request_bounds_witness :
  exists distance_max distance_min,
    tile_request Sample.criteria 34576447 (4096, 4096)
    = TileRequest 34576447 13 4096 4096 distance_max distance_min
    /\ distance_min <= distance_max
    /\ ((0 <= SegmentCriteria.min_distance Sample.criteria)%Q ->
        0 <= distance_min /\ 0 <= distance_max).
Proof.
  apply (tile_request_bounds Sample.criteria 34576447 (4096, 4096)).
  unfold Qle. cbn. lia.
Defined.
